(** * Hardmax kernel of [python/tvm/topi/tensor.py]

    A shallow embedding of [hardmax] and of its kernel author [_hardmax]:
    the statement tree the function assembles through the IR builder, an
    interpreter for that tree, and the properties of the tensor the tree
    computes. *)

From Stdlib Require Import ZArith List SpecFloat Lia QArith.
From stdpp Require Import gmap strings list fin_maps.

Set Warnings "-register-all".

Local Open Scope Z_scope.

(** ** Element values *)

(** Tensor elements are IEEE-754 floating-point numbers, taken here as the
    Standard Library's [spec_float]: a sign, a mantissa and an exponent of
    any width, so that the elements of a tensor of 64 bits and the contents
    of a scratch of 32 bits are values of the same type. *)
Definition float : Type := spec_float.

Definition neg_inf : float := S754_infinity true.
Definition fzero : float := S754_zero false.
(** [1.0] in binary32: mantissa [2^23], exponent [-23]. *)
Definition fone : float := S754_finite false 8388608 (-23).
Definition nan : float := S754_nan.

(** [float("…")] literals used by the examples below (binary32). *)
Definition f2 : float := S754_finite false 8388608 (-22).
Definition f3 : float := S754_finite false 12582912 (-22).
Definition f5 : float := S754_finite false 10485760 (-21).
Definition f9 : float := S754_finite false 9437184 (-20).

Definition is_nan (x : float) : bool :=
  match x with S754_nan => true | _ => false end.

(** The comparison of the kernel is the one of the numbers the floats stand
    for, whatever their widths: negative infinity, then the finite numbers
    by value (both zeros are the number 0), then positive infinity; a NaN
    is below and above nothing. *)
Definition float_class (x : float) : Z :=
  match x with
  | S754_infinity true => -1
  | S754_infinity false => 1
  | _ => 0
  end.

(** The rational [(-1)^s * m * 2^e] of a finite float. *)
Definition float_value (x : float) : Q :=
  match x with
  | S754_finite s m e =>
      ((if s then -1 else 1) * (inject_Z (Z.pos m) * Qpower 2 e))%Q
  | _ => 0%Q
  end.

Definition fcompare (a b : float) : option comparison :=
  if is_nan a || is_nan b then None
  else Some match float_class a ?= float_class b with
            | Eq => (float_value a ?= float_value b)%Q
            | c => c
            end.

(** [a > b] on floats. *)
Definition fgt (a b : float) : bool :=
  match fcompare b a with Some Lt => true | _ => false end.

(** [a <= b] on floats. *)
Definition fle (a b : float) : bool :=
  match fcompare a b with Some Lt | Some Eq => true | _ => false end.

(** The floats of 32 bits: precision 24, largest exponent 128. *)
Definition is_binary32 (x : float) : bool := valid_binary 24 128 x.

(** Conversion to 32 bits: a float of 32 bits is kept, another finite float
    goes to the nearest float of 32 bits, ties to even. *)
Definition round32 (x : float) : float :=
  match x with
  | S754_finite s m e =>
      if bounded 24 128 m e then x else binary_round 24 128 s m e
  | _ => x
  end.

(** [a] is a smaller number than [b]. *)
Definition key_lt (a b : float) : Prop :=
  float_class a < float_class b
  \/ (float_class a = float_class b /\ (float_value a < float_value b)%Q).

Inductive value : Type :=
| VInt (n : Z)
| VFloat (f : float)
| VBool (b : bool)
| VUndef.

(** ** Statement and expression model *)

Inductive expr : Type :=
| Var (name : string)
| IntImm (n : Z)
| FloatImm (f : float)
| Add (a b : expr)
| Mul (a b : expr)
| GT (a b : expr)
| Load (buf : string) (index : expr).

Inductive stmt : Type :=
| Store (buf : string) (val : expr) (index : expr)
| For (loop_var : string) (lo extent : expr) (body : stmt)
| IfThenElse (cond : expr) (then_case : stmt) (else_case : option stmt)
| SeqStmt (ss : list stmt)
| Allocate (buf : string) (dtype : string) (extents : list Z)
    (scope : string) (body : stmt).

(** ** Errors *)

(** The error kinds of the specification, and [IndexError], the built-in
    exception of tuple indexing ([shape[axis]]). *)
Inductive error : Type :=
| InvalidShape
| AxisOutOfRange
| UnclosedScope
| UseAfterSeal
| TypeMismatch
| IndexError.

(** ** Kernel IR builder *)

Module ir_builder.

(** Modelled from the spec: the builder session [tir.ir_builder] is not
    part of this file.  A session is a stack of statement lists; a scratch
    allocation is recorded in the current list and, when the list is
    closed, scopes over the statements that follow it. *)
Inductive item : Type :=
| IStmt (s : stmt)
| IAlloc (buf dtype : string) (extents : list Z) (scope : string).

Record t : Type := mk { seq_stack : list (list item) }.

(** An authoring action: it may raise, and the session keeps whatever was
    emitted before. *)
Definition M (A : Type) : Type := t -> (error + A) * t.

Definition ret {A} (a : A) : M A := fun ib => (inr a, ib).
Definition raise {A} (e : error) : M A := fun ib => (inl e, ib).
Definition bind {A B} (m : M A) (f : A -> M B) : M B :=
  fun ib => match m ib with
            | (inl e, ib') => (inl e, ib')
            | (inr a, ib') => f a ib'
            end.

(** A Python expression that returns or raises, inside an action. *)
Definition lift {A} (r : error + A) : M A := fun ib => (r, ib).

Definition create : t := mk [[]].

Definition emit (i : item) : M unit :=
  fun ib => match seq_stack ib with
            | top :: rest => (inr tt, mk ((top ++ [i]) :: rest))
            | [] => (inl UseAfterSeal, ib)
            end.

(** Closing a statement list: a single statement stands for itself, and
    each allocation wraps the remainder of the list. *)
Definition seq_of (ss : list stmt) : stmt :=
  match ss with
  | [s] => s
  | _ => SeqStmt ss
  end.

Fixpoint close (items : list item) (acc : list stmt) : stmt :=
  match items with
  | [] => seq_of acc
  | IStmt s :: rest => close rest (acc ++ [s])
  | IAlloc b d e sc :: rest =>
      seq_of (acc ++ [Allocate b d e sc (close rest [])])
  end.

Definition push_scope : M unit :=
  fun ib => (inr tt, mk ([] :: seq_stack ib)).

Definition pop_scope : M stmt :=
  fun ib => match seq_stack ib with
            | top :: rest => (inr (close top []), mk rest)
            | [] => (inl UseAfterSeal, ib)
            end.

(** A buffer view: flat-index loads and stores on a named buffer. *)
Record BufferVar : Type := mkBufferVar { buffer_var : string; content_type : string }.

Definition buffer_ptr (name dtype : string) : BufferVar := mkBufferVar name dtype.

Definition getitem (b : BufferVar) (index : expr) : expr := Load (buffer_var b) index.

Definition setitem (b : BufferVar) (index : expr) (val : expr) : M unit :=
  emit (IStmt (Store (buffer_var b) val index)).

Definition allocate (dtype : string) (extents : list Z) (name scope : string)
  : M BufferVar :=
  bind (emit (IAlloc name dtype extents scope))
       (fun _ => ret (mkBufferVar name dtype)).

(** [with ib.for_range(lo, extent, name) as v: body v]. *)
Definition for_range (lo extent : expr) (name : string) (body : expr -> M unit)
  : M unit :=
  bind push_scope (fun _ =>
  bind (body (Var name)) (fun _ =>
  bind pop_scope (fun s =>
  emit (IStmt (For name lo extent s))))).

(** [with ib.if_scope(cond): body]. *)
Definition if_scope (cond : expr) (body : M unit) : M unit :=
  bind push_scope (fun _ =>
  bind body (fun _ =>
  bind pop_scope (fun s =>
  emit (IStmt (IfThenElse cond s None))))).

(** [ib.get()]: seals the session into its root statement. *)
Definition get : M stmt :=
  fun ib => match seq_stack ib with
            | [top] => (inr (close top []), mk [])
            | [] => (inl UseAfterSeal, ib)
            | _ => (inl UnclosedScope, ib)
            end.

(** The statements emitted so far into the open scopes of the session. *)
Definition emitted (ib : t) : list stmt :=
  concat (map (fun i => match i with IStmt s => [s] | IAlloc _ _ _ _ => [] end)
              (concat (seq_stack ib))).

End ir_builder.

#[global] Instance builder_ret : MRet ir_builder.M := @ir_builder.ret.
#[global] Instance builder_bind : MBind ir_builder.M :=
  fun A B f m => ir_builder.bind m f.

(** ** Shape utilities *)

(** A tensor descriptor: what [_hardmax] reads of [data] and [out_buf]. *)
Record Tensor : Type := mkTensor
  { name : string; shape : list Z; dtype : string }.

(** Modelled from the spec: [utils.prod], the element count of a shape. *)
Definition prod (shape : list Z) : Z := fold_left Z.mul shape 1.

(** Modelled from the spec: [utils.get_const_tuple], the extents as
    integers. *)
Definition get_const_tuple (shape : list Z) : list Z := shape.

(** [len(shape)]. *)
Definition len (shape : list Z) : Z := Z.of_nat (length shape).

(** [shape[axis]] on a tuple: a negative index counts from the end, and an
    index outside [-len, len) raises [IndexError]. *)
Definition tuple_getitem (shape : list Z) (axis : Z) : error + Z :=
  let i := if axis <? 0 then axis + len shape else axis in
  if (i <? 0) || (len shape <=? i) then inl IndexError
  else match shape !! Z.to_nat i with
       | Some s => inr s
       | None => inl IndexError
       end.

(** [for i, s in enumerate(shape): if i < axis: outer_size = outer_size * s] *)
Fixpoint outer_size_loop (axis : Z) (i : Z) (shape : list Z) (outer_size : Z) : Z :=
  match shape with
  | [] => outer_size
  | s :: rest =>
      outer_size_loop axis (i + 1) rest
        (if i <? axis then outer_size * s else outer_size)
  end.

(** [for i, s in enumerate(shape): if i > axis: inner_size = inner_size * s] *)
Fixpoint inner_size_loop (axis : Z) (i : Z) (shape : list Z) (inner_size : Z) : Z :=
  match shape with
  | [] => inner_size
  | s :: rest =>
      inner_size_loop axis (i + 1) rest
        (if axis <? i then inner_size * s else inner_size)
  end.

(** ** The kernel author *)

(** The flat offset [i * inner_size * cnt + j * inner_size + k]. *)
Definition index_expr (i j k : expr) (inner_size cnt : Z) : expr :=
  Add (Add (Mul (Mul i (IntImm inner_size)) (IntImm cnt))
           (Mul j (IntImm inner_size)))
      k.

(** [axis] after lines 102-105: only [-1] is rewritten. *)
Definition normalize_axis (data : Tensor) (axis : Z) : Z :=
  if axis =? -1 then len (shape data) - 1 else axis.

Definition _hardmax_body (data out_buf : Tensor) (axis : Z) : ir_builder.M stmt :=
  let input_data := ir_builder.buffer_ptr (name data) (dtype data) in
  let out := ir_builder.buffer_ptr (name out_buf) (dtype out_buf) in
  temp ← ir_builder.allocate "float32" [1] "temp_data" "local";
  temp1 ← ir_builder.allocate "int32" [1] "temp1_data" "local";
  let shape := get_const_tuple (shape data) in
  let axis := normalize_axis data axis in
  let out_size := prod shape in
  ir_builder.for_range (IntImm 0) (IntImm out_size) "i" (fun i =>
    ir_builder.setitem out i (FloatImm fzero));;
  let outer_size := outer_size_loop axis 0 shape 1 in
  let inner_size := inner_size_loop axis 0 shape 1 in
  cnt ← ir_builder.lift (tuple_getitem shape axis);
  ir_builder.for_range (IntImm 0) (IntImm outer_size) "i0" (fun i =>
    ir_builder.for_range (IntImm 0) (IntImm inner_size) "k" (fun k =>
      ir_builder.setitem temp (IntImm 0) (FloatImm neg_inf);;
      ir_builder.setitem temp1 (IntImm 0)
        (Add (Mul (Mul i (IntImm inner_size)) (IntImm cnt)) k);;
      ir_builder.for_range (IntImm 0) (IntImm cnt) "j" (fun j =>
        let index := index_expr i j k inner_size cnt in
        ir_builder.if_scope
          (GT (ir_builder.getitem input_data index)
              (ir_builder.getitem temp (IntImm 0)))
          (ir_builder.setitem temp1 (IntImm 0) index;;
           ir_builder.setitem temp (IntImm 0)
             (ir_builder.getitem input_data index)));;
      ir_builder.setitem out (ir_builder.getitem temp1 (IntImm 0))
        (FloatImm fone)));;
  ir_builder.get.

(** [_hardmax(data, out_buf, axis)]: the sealed tree or the exception, with
    the session as the call left it. *)
Definition _hardmax (data out_buf : Tensor) (axis : Z)
  : (error + stmt) * ir_builder.t :=
  _hardmax_body data out_buf axis ir_builder.create.

(** ** Extern binding *)

Record ExternOp : Type := mkExternOp
  { out_shape : list Z; out_dtype : string; inputs : list Tensor; body : stmt }.

(** Modelled from the spec: [te.extern] is not part of this file.  It
    declares one buffer for the input and one for the output, two distinct
    objects named here after the parameters they are bound to, calls the
    kernel author once on them, and keeps the sealed tree with the declared
    output shape and element type. *)
Definition extern (out_shape : list Z) (data : Tensor)
    (fcompute : Tensor -> Tensor -> (error + stmt) * ir_builder.t)
    (out_dtype : string) : error + ExternOp :=
  let ins0 := mkTensor "data" (shape data) (dtype data) in
  let outs0 := mkTensor "out_buf" out_shape out_dtype in
  match fst (fcompute ins0 outs0) with
  | inl e => inl e
  | inr s => inr (mkExternOp out_shape out_dtype [data] s)
  end.

Definition hardmax (data : Tensor) (axis : Z) : error + ExternOp :=
  extern (shape data) data
    (fun ins0 outs0 => _hardmax ins0 outs0 axis)
    (dtype data).

(** ** Executing a statement tree *)

Module Exec.

(** Modelled from the spec: the lowering stage that executes a sealed tree
    is not part of this file.  Loop variables live in an environment,
    buffers in a store of flat arrays; a for-range runs its body for the
    values [lo, lo+1, ..., lo+extent-1]; a load or store at an offset
    outside [0, element_count) has no result. *)

Fixpoint eval (rho : gmap string Z) (m : gmap string (list value)) (e : expr)
  : option value :=
  match e with
  | Var x => VInt <$> rho !! x
  | IntImm n => Some (VInt n)
  | FloatImm f => Some (VFloat f)
  | Add a b =>
      match eval rho m a, eval rho m b with
      | Some (VInt x), Some (VInt y) => Some (VInt (x + y))
      | _, _ => None
      end
  | Mul a b =>
      match eval rho m a, eval rho m b with
      | Some (VInt x), Some (VInt y) => Some (VInt (x * y))
      | _, _ => None
      end
  | GT a b =>
      match eval rho m a, eval rho m b with
      | Some (VFloat x), Some (VFloat y) => Some (VBool (fgt x y))
      | Some (VInt x), Some (VInt y) => Some (VBool (y <? x))
      | _, _ => None
      end
  | Load buf index =>
      match eval rho m index, m !! buf with
      | Some (VInt n), Some l =>
          if n <? 0 then None else l !! Z.to_nat n
      | _, _ => None
      end
  end.

Fixpoint iterate {S : Type} (step : Z -> S -> option S) (i : Z) (n : nat) (s : S)
  : option S :=
  match n with
  | O => Some s
  | Datatypes.S n' =>
      match step i s with
      | Some s' => iterate step (i + 1) n' s'
      | None => None
      end
  end.

(** What a scratch keeps of a value stored in it follows the element type
    it was allocated with: a [float32] scratch keeps the float of 32 bits
    nearest to a float, an [int32] scratch keeps an integer, and neither
    takes a value of another kind.  The width of the integer scratch is not
    modelled, an offset is kept as it is: what 32 bits do with an offset of
    [2^31] or more is not fixed by the source.  The integers the kernel
    stores there are flat offsets of elements of the tensor, so that the
    width matters only for a tensor of [2^31] elements or more. *)
Definition cast (dtype : string) (v : value) : option value :=
  if String.eqb dtype "float32" then
    match v with
    | VFloat f => Some (VFloat (round32 f))
    | _ => None
    end
  else if String.eqb dtype "int32" then
    match v with
    | VInt n => Some (VInt n)
    | _ => None
    end
  else Some v.

(** [ty] holds the element types of the scratches in scope.  A buffer bound
    by the extern node is not in it and keeps what is stored: the kernel
    stores nothing there but the constants [0.0] and [1.0]. *)
Definition convert (ty : gmap string string) (buf : string) (v : value)
  : option value :=
  match ty !! buf with
  | Some dtype => cast dtype v
  | None => Some v
  end.

Fixpoint exec_in (ty : gmap string string) (s : stmt) (rho : gmap string Z)
    (m : gmap string (list value)) : option (gmap string (list value)) :=
  match s with
  | Store buf val index =>
      match eval rho m val, eval rho m index, m !! buf with
      | Some v, Some (VInt n), Some l =>
          if (0 <=? n) && (n <? Z.of_nat (length l))
          then match convert ty buf v with
               | Some v' => Some (<[buf := <[Z.to_nat n := v']> l]> m)
               | None => None
               end
          else None
      | _, _, _ => None
      end
  | For x lo extent body =>
      match eval rho m lo, eval rho m extent with
      | Some (VInt a), Some (VInt n) =>
          iterate (fun i => exec_in ty body (<[x := i]> rho)) a (Z.to_nat n) m
      | _, _ => None
      end
  | IfThenElse cond then_case else_case =>
      match eval rho m cond with
      | Some (VBool true) => exec_in ty then_case rho m
      | Some (VBool false) =>
          match else_case with
          | Some e => exec_in ty e rho m
          | None => Some m
          end
      | _ => None
      end
  | SeqStmt ss =>
      (fix go (ss : list stmt) (m : gmap string (list value)) :=
         match ss with
         | [] => Some m
         | s :: rest =>
             match exec_in ty s rho m with
             | Some m' => go rest m'
             | None => None
             end
         end) ss m
  | Allocate buf dtype extents _ body =>
      match exec_in (<[buf := dtype]> ty) body rho
              (<[buf := replicate (Z.to_nat (prod extents)) VUndef]> m) with
      | Some m' => Some (delete buf m')
      | None => None
      end
  end.

(** A tree run with no scratch in scope. *)
Definition exec (s : stmt) (rho : gmap string Z) (m : gmap string (list value))
  : option (gmap string (list value)) :=
  exec_in ∅ s rho m.

(** The extern node materialized on a concrete input: the output buffer
    after the tree has run. *)
Definition run (op : ExternOp) (x : list float) : option (list value) :=
  let m0 : gmap string (list value) :=
    <["out_buf" := replicate (Z.to_nat (prod (out_shape op))) VUndef]>
      {["data" := VFloat <$> x]} in
  match exec (body op) ∅ m0 with
  | Some m => m !! "out_buf"
  | None => None
  end.

End Exec.

(** [hardmax(data, axis)] built and run on the flat input [x]. *)
Definition hardmax_run (data : Tensor) (axis : Z) (x : list float)
  : option (list value) :=
  match hardmax data axis with
  | inr op => Exec.run op x
  | inl _ => None
  end.

(** ** The kernel as the specification words it *)

Module Spec.

(** Step 2 of the algorithm: one flat pass storing [0.0]. *)
Definition zero_fill (outp : string) (total : Z) : stmt :=
  For "i" (IntImm 0) (IntImm total)
    (Store outp (FloatImm fzero) (Var "i")).

(** The flat offset [i*inner_size*axis_extent + j*inner_size + k]. *)
Definition offset (inner_size axis_extent : Z) (i j k : Z) : Z :=
  i * inner_size * axis_extent + j * inner_size + k.

Definition offset_expr (inner_size axis_extent : Z) : expr :=
  Add (Add (Mul (Mul (Var "i0") (IntImm inner_size)) (IntImm axis_extent))
           (Mul (Var "j") (IntImm inner_size)))
      (Var "k").

(** Scan [j] in [0, axis_extent): on [input[offset] > running_best], update
    the running best value and its offset. *)
Definition scan_j (inp : string) (inner_size axis_extent : Z) : stmt :=
  For "j" (IntImm 0) (IntImm axis_extent)
    (IfThenElse
       (GT (Load inp (offset_expr inner_size axis_extent))
           (Load "temp_data" (IntImm 0)))
       (SeqStmt
          [Store "temp1_data" (offset_expr inner_size axis_extent) (IntImm 0);
           Store "temp_data" (Load inp (offset_expr inner_size axis_extent))
             (IntImm 0)])
       None).

(** One outer/inner pair: running best at negative infinity, best offset
    at the offset of [j = 0], the scan, and the store of [1.0]. *)
Definition scan_group (inp outp : string) (inner_size axis_extent : Z) : stmt :=
  SeqStmt
    [Store "temp_data" (FloatImm neg_inf) (IntImm 0);
     Store "temp1_data"
       (Add (Mul (Mul (Var "i0") (IntImm inner_size)) (IntImm axis_extent))
            (Var "k"))
       (IntImm 0);
     scan_j inp inner_size axis_extent;
     Store outp (FloatImm fone) (Load "temp1_data" (IntImm 0))].

(** Step 3: for each [i] in [0, outer_size), each [k] in [0, inner_size). *)
Definition scan_mark (inp outp : string) (outer_size inner_size axis_extent : Z)
  : stmt :=
  For "i0" (IntImm 0) (IntImm outer_size)
    (For "k" (IntImm 0) (IntImm inner_size)
       (scan_group inp outp inner_size axis_extent)).

Definition kernel (inp outp : string) (total outer_size inner_size axis_extent : Z)
  : stmt :=
  Allocate "temp_data" "float32" [1] "local"
    (Allocate "temp1_data" "int32" [1] "local"
       (SeqStmt [zero_fill outp total;
                 scan_mark inp outp outer_size inner_size axis_extent])).

(** Product of the dimensions before / after axis [a]. *)
Definition outer_size (shape : list Z) (a : Z) : Z := prod (take (Z.to_nat a) shape).
Definition inner_size (shape : list Z) (a : Z) : Z := prod (drop (Z.to_nat (a + 1)) shape).
Definition axis_extent (shape : list Z) (a : Z) : Z := default 0 (shape !! Z.to_nat a).

(** The axis as the specification normalizes it: [a += r] if [a < 0]. *)
Definition normalize (r a : Z) : Z := if a <? 0 then a + r else a.

End Spec.

(** The valid axes of the specification: those from [-r] to [r-1], [r] the
    rank. *)
Definition axis_in_range (data : Tensor) (axis : Z) : Prop :=
  - len (shape data) <= axis < len (shape data).

(** The axes that lines 102-105 and the specification normalize alike:
    those from [0] to [r-1], and [-1]. *)
Definition handled_axis (data : Tensor) (axis : Z) : Prop :=
  0 <= axis < len (shape data) \/ (axis = -1 /\ 0 < len (shape data)).

(** The test of the code, narrower than [axis_in_range]: the axis of lines
    102-105 is a position of the shape.  It holds of the axes of
    [handled_axis] and of no axis from [-r] to [-2]. *)
Definition valid_axis (data : Tensor) (axis : Z) : Prop :=
  0 <= normalize_axis data axis < len (shape data).

(** A shape of the data model: every extent is positive. *)
Definition positive_shape (shape : list Z) : Prop := Forall (fun d => 0 < d) shape.

(** ** The scan of one axis group, as a function *)

(** Lines 124-130 on one group: [g j] is the input element at position [j]
    of the axis; the result is the running best value and its position.
    The running best is what the [float32] scratch keeps of the element. *)
Fixpoint scan (g : Z -> float) (j : Z) (n : nat) (best : float) (pos : Z)
  : float * Z :=
  match n with
  | O => (best, pos)
  | S n' =>
      if fgt (g j) best then scan g (j + 1) n' (round32 (g j)) j
      else scan g (j + 1) n' best pos
  end.

(** The position that receives [1.0]. *)
Definition first_max (g : Z -> float) (cnt : Z) : Z :=
  snd (scan g 0 (Z.to_nat cnt) neg_inf 0).

(** Element [n] of a flat tensor. *)
Definition get (x : list float) (n : Z) : float := default nan (x !! Z.to_nat n).

(** The axis group of the outer/inner pair [(i, k)]. *)
Definition group (x : list float) (inner_size cnt i k : Z) : Z -> float :=
  fun j => get x (Spec.offset inner_size cnt i j k).

(** The store of the kernel while the scan runs. *)
Definition kmem (x : list float) (out : list value) (t t1 : value)
  : gmap string (list value) :=
  <["temp1_data" := [t1]]>
    (<["temp_data" := [t]]>
       (<["out_buf" := out]> {["data" := VFloat <$> x]})).

(** The element types of the two scratches of the kernel. *)
Definition kernel_types : gmap string string :=
  <["temp1_data" := "int32"]> (<["temp_data" := "float32"]> ∅).

(** The flat offset that receives [1.0] for the pair [(i, k)]. *)
Definition target (x : list float) (inner_size cnt i k : Z) : Z :=
  Spec.offset inner_size cnt i (first_max (group x inner_size cnt i k) cnt) k.

(** Line 132 for the pair [(i, k)]. *)
Definition mark (x : list float) (inner_size cnt i k : Z) (out : list value)
  : list value :=
  <[Z.to_nat (target x inner_size cnt i k) := VFloat fone]> out.

(** The marks of the pairs [(i, k), ..., (i, k+n-1)]. *)
Fixpoint mark_k (x : list float) (inner_size cnt i k : Z) (n : nat)
    (out : list value) : list value :=
  match n with
  | O => out
  | S n' => mark_k x inner_size cnt i (k + 1) n' (mark x inner_size cnt i k out)
  end.

(** The marks of all pairs of the outer indices [i, ..., i+n-1]. *)
Fixpoint mark_i (x : list float) (inner_size cnt i : Z) (n : nat)
    (out : list value) : list value :=
  match n with
  | O => out
  | S n' =>
      mark_i x inner_size cnt (i + 1) n'
        (mark_k x inner_size cnt i 0 (Z.to_nat inner_size) out)
  end.

(** The zero-fill of lines 108-109 on the positions [i, ..., i+n-1]. *)
Fixpoint fill (i : Z) (n : nat) (out : list value) : list value :=
  match n with
  | O => out
  | S n' => fill (i + 1) n' (<[Z.to_nat i := VFloat fzero]> out)
  end.

(** The output of the kernel: the marks of all pairs on a zero tensor. *)
Definition kernel_output (x : list float) (outer_size inner_size cnt : Z)
  : list value :=
  mark_i x inner_size cnt 0 (Z.to_nat outer_size)
    (replicate (length x) (VFloat fzero)).

(** ** What the scan selects *)




(** ** The sizes of a call *)

(** The sizes at the axis of lines 102-105. *)
Definition outer_size_of (data : Tensor) (axis : Z) : Z :=
  Spec.outer_size (shape data) (normalize_axis data axis).
Definition inner_size_of (data : Tensor) (axis : Z) : Z :=
  Spec.inner_size (shape data) (normalize_axis data axis).
Definition axis_extent_of (data : Tensor) (axis : Z) : Z :=
  Spec.axis_extent (shape data) (normalize_axis data axis).

(** The sizes at the axis of the specification: the product of the
    dimensions before the normalized axis, the product of those after it,
    and the extent at it. *)
Definition outer_size_at (data : Tensor) (axis : Z) : Z :=
  Spec.outer_size (shape data) (Spec.normalize (len (shape data)) axis).
Definition inner_size_at (data : Tensor) (axis : Z) : Z :=
  Spec.inner_size (shape data) (Spec.normalize (len (shape data)) axis).
Definition axis_extent_at (data : Tensor) (axis : Z) : Z :=
  Spec.axis_extent (shape data) (Spec.normalize (len (shape data)) axis).





(** ** Statements of the claims *)


(** An input whose elements are floats of 32 bits. *)
Definition float32_tensor (x : list float) : Prop :=
  Forall (fun v => is_binary32 v = true) x.


(** The scan loops of a group of [axis_extent] elements [inner_size]
    apart: the running best starts at negative infinity and the best offset
    at the offset of [j = 0]; an element strictly above the running best
    replaces it and records its offset; the recorded offset receives
    [1.0]. *)
Definition scan_loops_of (outer_size inner_size axis_extent : Z) : stmt :=
  For "i0" (IntImm 0) (IntImm outer_size)
    (For "k" (IntImm 0) (IntImm inner_size)
       (SeqStmt
          [Store "temp_data" (FloatImm neg_inf) (IntImm 0);
           Store "temp1_data"
             (Add (Mul (Mul (Var "i0") (IntImm inner_size))
                       (IntImm axis_extent))
                  (Var "k"))
             (IntImm 0);
           For "j" (IntImm 0) (IntImm axis_extent)
             (IfThenElse
                (GT (Load "data"
                       (Add (Add (Mul (Mul (Var "i0") (IntImm inner_size))
                                      (IntImm axis_extent))
                                 (Mul (Var "j") (IntImm inner_size)))
                            (Var "k")))
                    (Load "temp_data" (IntImm 0)))
                (SeqStmt
                   [Store "temp1_data"
                      (Add (Add (Mul (Mul (Var "i0") (IntImm inner_size))
                                     (IntImm axis_extent))
                                (Mul (Var "j") (IntImm inner_size)))
                           (Var "k"))
                      (IntImm 0);
                    Store "temp_data"
                      (Load "data"
                         (Add (Add (Mul (Mul (Var "i0") (IntImm inner_size))
                                        (IntImm axis_extent))
                                   (Mul (Var "j") (IntImm inner_size)))
                              (Var "k")))
                      (IntImm 0)])
                None);
           Store "out_buf" (FloatImm fone) (Load "temp1_data" (IntImm 0))])).

(** The scan phase of the specification for a call: under the two scratch
    allocations and after a first statement, the built tree is the scan
    loops over the product of the dimensions before the axis of the
    specification, the product of those after it, and the extent at it. *)
Definition scan_phase_at (data : Tensor) (axis : Z) : Prop :=
  let a := Spec.normalize (len (shape data)) axis in
  let outer_size := prod (take (Z.to_nat a) (shape data)) in
  let inner_size := prod (drop (Z.to_nat (a + 1)) (shape data)) in
  exists axis_extent op zero,
    shape data !! Z.to_nat a = Some axis_extent
    /\ hardmax data axis = inr op
    /\ body op
       = Allocate "temp_data" "float32" [1] "local"
           (Allocate "temp1_data" "int32" [1] "local"
              (SeqStmt [zero; scan_loops_of outer_size inner_size axis_extent])).



Definition d23 : Tensor := mkTensor "x" [2; 3] "float32".
Definition x23 : list float := [fone; f5; f3; f9; f2; f2].


(** ** Statements of the further properties *)


(** Two groups whose elements compare the same way, with each other and
    with negative infinity. *)
Definition same_order (f f' : Z -> float) (cnt : Z) : Prop :=
  (forall a b, 0 <= a < cnt -> 0 <= b < cnt ->
     fgt (f a) (f b) = fgt (f' a) (f' b))
  /\ (forall a, 0 <= a < cnt -> fgt (f a) neg_inf = fgt (f' a) neg_inf).


(** The offsets of the loops of the built kernel cover the tensor exactly
    once: the loops are those of the sizes at the specification's axis;
    the index expression of the loop nest evaluates to
    [i*inner_size*cnt + j*inner_size + k]; every triple of the loops
    addresses an element of the tensor; every element is addressed by
    exactly one triple. *)
Definition offsets_cover_once (data : Tensor) (axis : Z) : Prop :=
  let outer_size := outer_size_at data axis in
  let inner_size := inner_size_at data axis in
  let cnt := axis_extent_at data axis in
  exists op,
    hardmax data axis = inr op
    /\ body op
       = Allocate "temp_data" "float32" [1] "local"
           (Allocate "temp1_data" "int32" [1] "local"
              (SeqStmt
                 [Spec.zero_fill "out_buf" (prod (shape data));
                  scan_loops_of outer_size inner_size cnt]))
    /\ (forall rho m i j k,
          rho !! "i0" = Some i -> rho !! "j" = Some j -> rho !! "k" = Some k ->
          Exec.eval rho m
            (Add (Add (Mul (Mul (Var "i0") (IntImm inner_size)) (IntImm cnt))
                      (Mul (Var "j") (IntImm inner_size)))
                 (Var "k"))
          = Some (VInt (i * inner_size * cnt + j * inner_size + k)))
    /\ (forall i j k,
          0 <= i < outer_size -> 0 <= j < cnt -> 0 <= k < inner_size ->
          0 <= i * inner_size * cnt + j * inner_size + k < prod (shape data))
    /\ (forall n, 0 <= n < prod (shape data) ->
          exists i j k,
            (0 <= i < outer_size /\ 0 <= j < cnt /\ 0 <= k < inner_size)
            /\ i * inner_size * cnt + j * inner_size + k = n
            /\ forall i' j' k',
                 0 <= i' < outer_size -> 0 <= j' < cnt -> 0 <= k' < inner_size ->
                 i' * inner_size * cnt + j' * inner_size + k' = n ->
                 i' = i /\ j' = j /\ k' = k).

(** * Proofs *)

(** ** Shape arithmetic *)

Section ShapeFacts.

Lemma prod_acc (l : list Z) (a : Z) : fold_left Z.mul l a = a * prod l.
Proof.
  unfold prod. revert a. induction l as [|s l IH]; intros a; simpl.
  - lia.
  - rewrite IH, (IH (1 * s)). lia.
Qed.

Lemma prod_nil : prod [] = 1.
Proof. reflexivity. Qed.

Lemma prod_cons (s : Z) (l : list Z) : prod (s :: l) = s * prod l.
Proof. unfold prod at 1. simpl. rewrite prod_acc. lia. Qed.

Lemma prod_app (l1 l2 : list Z) : prod (l1 ++ l2) = prod l1 * prod l2.
Proof.
  induction l1 as [|s l1 IH]; simpl.
  - rewrite prod_nil. lia.
  - rewrite !prod_cons, IH. lia.
Qed.

Lemma prod_pos (l : list Z) : positive_shape l -> 0 < prod l.
Proof.
  induction 1 as [|s l Hs _ IH].
  - rewrite prod_nil. lia.
  - rewrite prod_cons. lia.
Qed.

Lemma outer_size_loop_spec (shape : list Z) (axis i acc : Z) :
  outer_size_loop axis i shape acc = acc * prod (take (Z.to_nat (axis - i)) shape).
Proof.
  revert i acc. induction shape as [|s shape IH]; intros i acc; simpl.
  - rewrite take_nil, prod_nil. lia.
  - rewrite IH. destruct (Z.ltb_spec i axis) as [Hlt|Hge].
    + replace (Z.to_nat (axis - i)) with (S (Z.to_nat (axis - (i + 1)))) by lia.
      simpl. rewrite prod_cons. lia.
    + replace (Z.to_nat (axis - i)) with O by lia.
      replace (Z.to_nat (axis - (i + 1))) with O by lia.
      reflexivity.
Qed.

Lemma inner_size_loop_after (shape : list Z) (axis i acc : Z) :
  axis < i -> inner_size_loop axis i shape acc = acc * prod shape.
Proof.
  revert i acc. induction shape as [|s shape IH]; intros i acc Hi; simpl.
  - rewrite prod_nil. lia.
  - destruct (Z.ltb_spec axis i); [|lia].
    rewrite IH by lia. rewrite prod_cons. lia.
Qed.

Lemma inner_size_loop_spec (shape : list Z) (axis i acc : Z) :
  i <= axis + 1 ->
  inner_size_loop axis i shape acc = acc * prod (drop (Z.to_nat (axis + 1 - i)) shape).
Proof.
  revert i acc. induction shape as [|s shape IH]; intros i acc Hi.
  - simpl. rewrite drop_nil, prod_nil. lia.
  - destruct (Z.eq_dec i (axis + 1)) as [->|Hne].
    + rewrite inner_size_loop_after by lia.
      replace (Z.to_nat (axis + 1 - (axis + 1))) with O by lia. reflexivity.
    + simpl. destruct (Z.ltb_spec axis i); [lia|].
      rewrite IH by lia.
      replace (Z.to_nat (axis + 1 - i)) with (S (Z.to_nat (axis + 1 - (i + 1)))) by lia.
      reflexivity.
Qed.

Lemma outer_size_eq (shape : list Z) (a : Z) :
  outer_size_loop a 0 shape 1 = Spec.outer_size shape a.
Proof.
  rewrite outer_size_loop_spec. unfold Spec.outer_size.
  replace (a - 0) with a by lia. lia.
Qed.

Lemma inner_size_eq (shape : list Z) (a : Z) :
  0 <= a -> inner_size_loop a 0 shape 1 = Spec.inner_size shape a.
Proof.
  intros Ha. rewrite inner_size_loop_spec by lia. unfold Spec.inner_size.
  replace (a + 1 - 0) with (a + 1) by lia. lia.
Qed.

Lemma tuple_getitem_valid (shape : list Z) (a : Z) :
  0 <= a < len shape ->
  tuple_getitem shape a = inr (Spec.axis_extent shape a)
  /\ shape !! Z.to_nat a = Some (Spec.axis_extent shape a).
Proof.
  intros Ha. unfold tuple_getitem, Spec.axis_extent, len in *.
  destruct (Z.ltb_spec a 0); [lia|].
  destruct (Z.ltb_spec a 0); [lia|].
  destruct (Z.leb_spec (Z.of_nat (length shape)) a); [lia|]. simpl.
  destruct (shape !! Z.to_nat a) eqn:E; [done|].
  apply lookup_ge_None in E. lia.
Qed.

Lemma tuple_getitem_out_of_range (shape : list Z) (a : Z) :
  a < - len shape \/ len shape <= a ->
  tuple_getitem shape a = inl IndexError.
Proof.
  intros Ha. unfold tuple_getitem, len in *.
  destruct (Z.ltb_spec a 0).
  - destruct (Z.ltb_spec (a + Z.of_nat (length shape)) 0); [done|lia].
  - destruct (Z.ltb_spec a 0); [lia|].
    destruct (Z.leb_spec (Z.of_nat (length shape)) a); [done|lia].
Qed.

(** The element count splits at the axis:
    [prod shape = outer_size * axis_extent * inner_size]. *)
Lemma prod_split (shape : list Z) (a : Z) :
  0 <= a < len shape ->
  prod shape
  = Spec.outer_size shape a * Spec.inner_size shape a * Spec.axis_extent shape a.
Proof.
  intros Ha. destruct (tuple_getitem_valid shape a Ha) as [_ Hl].
  unfold Spec.outer_size, Spec.inner_size.
  rewrite <- (take_drop_middle shape (Z.to_nat a) _ Hl) at 1.
  rewrite prod_app, prod_cons.
  replace (Z.to_nat (a + 1)) with (S (Z.to_nat a)) by lia. lia.
Qed.

Lemma sizes_pos (shape : list Z) (a : Z) :
  positive_shape shape -> 0 <= a < len shape ->
  0 < Spec.outer_size shape a /\ 0 < Spec.inner_size shape a
  /\ 0 < Spec.axis_extent shape a.
Proof.
  intros Hpos Ha. destruct (tuple_getitem_valid shape a Ha) as [_ Hl].
  unfold Spec.outer_size, Spec.inner_size. repeat split.
  - apply prod_pos. unfold positive_shape in *.
    rewrite Forall_forall in *. intros d Hd. apply Hpos.
    apply (subseteq_take (Z.to_nat a)); done.
  - apply prod_pos. unfold positive_shape in *.
    rewrite Forall_forall in *. intros d Hd. apply Hpos.
    apply (subseteq_drop (Z.to_nat (a + 1))); done.
  - unfold positive_shape in Hpos. rewrite Forall_forall in Hpos.
    apply Hpos. apply list_elem_of_lookup. eauto.
Qed.

End ShapeFacts.

(** ** What the kernel author builds *)

Section Builder.

Variables (data out_buf : Tensor) (axis : Z).

Let a := normalize_axis data axis.

(** When [shape[axis]] has a value, the session is sealed into the kernel
    of the specification. *)
Lemma _hardmax_sealed (cnt : Z) :
  tuple_getitem (shape data) a = inr cnt ->
  _hardmax data out_buf axis
  = (inr (Spec.kernel (name data) (name out_buf) (prod (shape data))
            (outer_size_loop a 0 (shape data) 1)
            (inner_size_loop a 0 (shape data) 1) cnt),
     ir_builder.mk []).
Proof.
  intros H. unfold _hardmax, _hardmax_body, get_const_tuple.
  fold a. unfold mbind, builder_bind, ir_builder.bind at 1 2 3.
  simpl. unfold ir_builder.bind at 1, ir_builder.lift at 1. rewrite H.
  reflexivity.
Qed.

(** When [shape[axis]] raises, the exception leaves [_hardmax] after the
    two scratch allocations and the zero-fill loop were emitted. *)
Lemma _hardmax_raises (e : error) :
  tuple_getitem (shape data) a = inl e ->
  _hardmax data out_buf axis
  = (inl e,
     ir_builder.mk
       [[ir_builder.IAlloc "temp_data" "float32" [1] "local";
         ir_builder.IAlloc "temp1_data" "int32" [1] "local";
         ir_builder.IStmt (Spec.zero_fill (name out_buf) (prod (shape data)))]]).
Proof.
  intros H. unfold _hardmax, _hardmax_body, get_const_tuple.
  fold a. unfold mbind, builder_bind, ir_builder.bind at 1 2 3.
  simpl. unfold ir_builder.bind at 1, ir_builder.lift at 1. rewrite H.
  reflexivity.
Qed.

End Builder.

(** ** The order of the comparison *)

Module FloatOrder.

Lemma key_lt_irrefl (a : float) : ~ key_lt a a.
Proof. intros [H|[_ H]]; [lia|]. by apply Qlt_irrefl in H. Qed.

Lemma key_lt_trans (a b c : float) : key_lt a b -> key_lt b c -> key_lt a c.
Proof.
  intros [H1|[E1 H1]] [H2|[E2 H2]]; unfold key_lt; try (left; lia).
  right. split; [lia|]. eapply Qlt_trans; eassumption.
Qed.


(** The outcomes of a comparison of two numbers. *)
Lemma fcompare_cases (a b : float) :
  is_nan a = false -> is_nan b = false ->
  match fcompare a b with
  | Some Lt => key_lt a b
  | Some Eq => ~ key_lt a b /\ ~ key_lt b a
  | Some Gt => key_lt b a
  | None => False
  end.
Proof.
  intros Ha Hb. unfold fcompare. rewrite Ha, Hb. simpl. unfold key_lt.
  destruct (Z.compare_spec (float_class a) (float_class b)) as [E|H|H].
  - destruct (Qcompare_spec (float_value a) (float_value b)) as [Eq|Hlt|Hgt].
    + split; intros [?|[_ Hlt]]; try lia; rewrite Eq in Hlt;
        by apply Qlt_irrefl in Hlt.
    + right. done.
    + right. done.
  - by left.
  - by left.
Qed.

Lemma fcompare_nan (a b : float) :
  is_nan a = true \/ is_nan b = true -> fcompare a b = None.
Proof. unfold fcompare. intros [-> | ->]; [done|]. by rewrite orb_true_r. Qed.

Lemma fgt_spec (a b : float) :
  fgt a b = true <-> is_nan a = false /\ is_nan b = false /\ key_lt b a.
Proof.
  unfold fgt. destruct (is_nan a) eqn:Ea.
  { rewrite fcompare_nan by auto. split; [discriminate|]. intros [? _]; discriminate. }
  destruct (is_nan b) eqn:Eb.
  { rewrite fcompare_nan by auto. split; [discriminate|]. intros (_ & ? & _); discriminate. }
  pose proof (fcompare_cases b a Eb Ea) as H.
  destruct (fcompare b a) as [[]|]; try done.
  - split; [discriminate|]. intros (_ & _ & Hlt). tauto.
  - split; [discriminate|]. intros (_ & _ & Hlt).
    destruct (key_lt_irrefl _ (key_lt_trans _ _ _ H Hlt)).
Qed.

Lemma fle_spec (a b : float) :
  fle a b = true <-> is_nan a = false /\ is_nan b = false /\ ~ key_lt b a.
Proof.
  unfold fle. destruct (is_nan a) eqn:Ea.
  { rewrite fcompare_nan by auto. split; [discriminate|]. intros [? _]; discriminate. }
  destruct (is_nan b) eqn:Eb.
  { rewrite fcompare_nan by auto. split; [discriminate|]. intros (_ & ? & _); discriminate. }
  pose proof (fcompare_cases a b Ea Eb) as H.
  destruct (fcompare a b) as [[]|]; try done.
  - tauto.
  - split; [|done]. intros _. repeat split. intros H'.
    destruct (key_lt_irrefl _ (key_lt_trans _ _ _ H H')).
  - split; [discriminate|]. tauto.
Qed.



Lemma fgt_not_fle (a b : float) : fgt a b = true -> fle a b = false.
Proof.
  intros Hgt. destruct (fle a b) eqn:E; [|done].
  apply fle_spec in E. apply fgt_spec in Hgt. tauto.
Qed.






End FloatOrder.

(** ** The store of the kernel *)

Section Store.

Variables (x : list float) (out : list value) (t t1 : value).

Lemma kmem_data : kmem x out t t1 !! "data" = Some (VFloat <$> x).
Proof. reflexivity. Qed.

Lemma kmem_out : kmem x out t t1 !! "out_buf" = Some out.
Proof. reflexivity. Qed.

Lemma kmem_temp : kmem x out t t1 !! "temp_data" = Some [t].
Proof. reflexivity. Qed.

Lemma kmem_temp1 : kmem x out t t1 !! "temp1_data" = Some [t1].
Proof. reflexivity. Qed.

Lemma kmem_set_out (out' : list value) :
  <["out_buf" := out']> (kmem x out t t1) = kmem x out' t t1.
Proof. reflexivity. Qed.

Lemma kmem_set_temp (t' : value) :
  <["temp_data" := [t']]> (kmem x out t t1) = kmem x out t' t1.
Proof. reflexivity. Qed.

Lemma kmem_set_temp1 (t' : value) :
  <["temp1_data" := [t']]> (kmem x out t t1) = kmem x out t t'.
Proof. reflexivity. Qed.

End Store.

(** ** Flat offsets *)

Section Offsets.

Variables (outer_size inner_size cnt : Z).
Hypothesis (Hinner : 0 < inner_size) (Hcnt : 0 < cnt).

Local Abbreviation off := (Spec.offset inner_size cnt).

Lemma offset_range (i j k : Z) :
  0 <= i < outer_size -> 0 <= j < cnt -> 0 <= k < inner_size ->
  0 <= off i j k < outer_size * inner_size * cnt.
Proof.
  intros Hi Hj Hk. unfold Spec.offset.
  assert (off_eq : i * inner_size * cnt + j * inner_size + k
                   = (i * cnt + j) * inner_size + k) by lia.
  rewrite off_eq.
  assert (0 <= i * cnt + j <= outer_size * cnt - 1) by nia.
  split; [nia|].
  assert ((i * cnt + j) * inner_size <= (outer_size * cnt - 1) * inner_size) by nia.
  lia.
Qed.

Lemma offset_inj (i j k i' j' k' : Z) :
  0 <= j < cnt -> 0 <= k < inner_size ->
  0 <= j' < cnt -> 0 <= k' < inner_size ->
  off i j k = off i' j' k' -> i = i' /\ j = j' /\ k = k'.
Proof.
  intros Hj Hk Hj' Hk' E. unfold Spec.offset in E.
  assert (E1 : inner_size * (i * cnt + j) + k = inner_size * (i' * cnt + j') + k') by lia.
  apply Z.div_mod_unique in E1; [|lia|lia]. destruct E1 as [E1 ->].
  assert (E2 : cnt * i + j = cnt * i' + j') by lia.
  apply Z.div_mod_unique in E2; [|lia|lia]. destruct E2 as [-> ->]. done.
Qed.

Lemma offset_decompose (n : Z) :
  0 <= n < outer_size * inner_size * cnt ->
  exists i j k, 0 <= i < outer_size /\ 0 <= j < cnt /\ 0 <= k < inner_size
                /\ n = off i j k.
Proof.
  intros Hn.
  exists (n / inner_size / cnt), ((n / inner_size) mod cnt), (n mod inner_size).
  pose proof (Z.div_mod n inner_size ltac:(lia)) as D1.
  pose proof (Z.mod_pos_bound n inner_size Hinner) as B1.
  pose proof (Z.div_mod (n / inner_size) cnt ltac:(lia)) as D2.
  pose proof (Z.mod_pos_bound (n / inner_size) cnt Hcnt) as B2.
  assert (0 <= n / inner_size) by (apply Z.div_pos; lia).
  assert (0 <= n / inner_size / cnt) by (apply Z.div_pos; lia).
  assert (n / inner_size < outer_size * cnt).
  { apply Z.div_lt_upper_bound; [lia|]. lia. }
  assert (n / inner_size / cnt < outer_size).
  { apply Z.div_lt_upper_bound; [lia|]. lia. }
  repeat split; try lia.
  unfold Spec.offset. nia.
Qed.

End Offsets.

(** ** Equations of the interpreter *)

Section ExecEquations.

Variables (ty : gmap string string) (rho : gmap string Z)
  (m : gmap string (list value)).

Lemma eval_load (buf : string) (index : expr) (n : Z) (l : list value) :
  Exec.eval rho m index = Some (VInt n) -> m !! buf = Some l -> 0 <= n ->
  Exec.eval rho m (Load buf index) = l !! Z.to_nat n.
Proof.
  intros Hi Hb Hn. cbn [Exec.eval]. rewrite Hi, Hb.
  destruct (Z.ltb_spec n 0); [lia|done].
Qed.

Lemma eval_gt (a b : expr) (u v : float) :
  Exec.eval rho m a = Some (VFloat u) -> Exec.eval rho m b = Some (VFloat v) ->
  Exec.eval rho m (GT a b) = Some (VBool (fgt u v)).
Proof. intros Ha Hb. cbn [Exec.eval]. rewrite Ha, Hb. done. Qed.

Lemma exec_store (buf : string) (val index : expr) (v v' : value) (n : Z)
    (l : list value) :
  Exec.eval rho m val = Some v -> Exec.eval rho m index = Some (VInt n) ->
  m !! buf = Some l -> 0 <= n < Z.of_nat (length l) ->
  Exec.convert ty buf v = Some v' ->
  Exec.exec_in ty (Store buf val index) rho m
  = Some (<[buf := <[Z.to_nat n := v']> l]> m).
Proof.
  intros Hv Hi Hb Hn Hc. cbn [Exec.exec_in]. rewrite Hv, Hi, Hb, Hc.
  destruct (Z.leb_spec 0 n); [|lia].
  destruct (Z.ltb_spec n (Z.of_nat (length l))); [done|lia].
Qed.


Lemma exec_if (cond : expr) (then_case : stmt) (c : bool) :
  Exec.eval rho m cond = Some (VBool c) ->
  Exec.exec_in ty (IfThenElse cond then_case None) rho m
  = if c then Exec.exec_in ty then_case rho m else Some m.
Proof. intros Hc. cbn [Exec.exec_in]. rewrite Hc. done. Qed.

Lemma exec_seq_nil : Exec.exec_in ty (SeqStmt []) rho m = Some m.
Proof. done. Qed.

Lemma exec_seq_cons (s : stmt) (rest : list stmt) :
  Exec.exec_in ty (SeqStmt (s :: rest)) rho m
  = match Exec.exec_in ty s rho m with
    | Some m' => Exec.exec_in ty (SeqStmt rest) rho m'
    | None => None
    end.
Proof. done. Qed.

Lemma exec_for (v : string) (a n : Z) (body : stmt) :
  Exec.exec_in ty (For v (IntImm a) (IntImm n) body) rho m
  = Exec.iterate (fun i => Exec.exec_in ty body (<[v := i]> rho)) a (Z.to_nat n) m.
Proof. done. Qed.

Lemma exec_allocate (buf dtype scope : string) (extents : list Z) (body : stmt) :
  Exec.exec_in ty (Allocate buf dtype extents scope body) rho m
  = match Exec.exec_in (<[buf := dtype]> ty) body rho
            (<[buf := replicate (Z.to_nat (prod extents)) VUndef]> m) with
    | Some m' => Some (delete buf m')
    | None => None
    end.
Proof. done. Qed.

End ExecEquations.

(** ** Running the scan *)

Section ScanRuns.

Variables (x : list float) (inner_size cnt : Z).

Local Abbreviation off := (Spec.offset inner_size cnt).
Local Abbreviation g := (group x inner_size cnt).

Lemma eval_offset_expr (rho : gmap string Z) (m : gmap string (list value))
    (i j k : Z) :
  rho !! "i0" = Some i -> rho !! "j" = Some j -> rho !! "k" = Some k ->
  Exec.eval rho m (Spec.offset_expr inner_size cnt) = Some (VInt (off i j k)).
Proof.
  intros Hi Hj Hk. unfold Spec.offset_expr, Spec.offset.
  cbn [Exec.eval]. rewrite Hi, Hj, Hk. reflexivity.
Qed.

Lemma lookup_data (n : Z) :
  0 <= n < Z.of_nat (length x) ->
  (VFloat <$> x) !! Z.to_nat n = Some (VFloat (get x n)).
Proof.
  intros Hn. rewrite list_lookup_fmap. unfold get.
  destruct (x !! Z.to_nat n) eqn:E; [done|].
  apply lookup_ge_None in E. lia.
Qed.

Lemma eval_load_data (rho : gmap string Z) (out : list value) (t t1 : value)
    (i j k : Z) :
  rho !! "i0" = Some i -> rho !! "j" = Some j -> rho !! "k" = Some k ->
  0 <= off i j k < Z.of_nat (length x) ->
  Exec.eval rho (kmem x out t t1) (Load "data" (Spec.offset_expr inner_size cnt))
  = Some (VFloat (g i k j)).
Proof.
  intros Hi Hj Hk Hr.
  rewrite (eval_load _ _ _ _ (off i j k) (VFloat <$> x)).
  - apply lookup_data, Hr.
  - by apply eval_offset_expr.
  - apply kmem_data.
  - lia.
Qed.

(** One iteration of the [j] loop (lines 127-130). *)
Lemma exec_scan_body (rho : gmap string Z) (out : list value)
    (b : float) (p i j k : Z) :
  rho !! "i0" = Some i -> rho !! "j" = Some j -> rho !! "k" = Some k ->
  0 <= off i j k < Z.of_nat (length x) ->
  Exec.exec_in kernel_types
    (IfThenElse
       (GT (Load "data" (Spec.offset_expr inner_size cnt))
           (Load "temp_data" (IntImm 0)))
       (SeqStmt
          [Store "temp1_data" (Spec.offset_expr inner_size cnt) (IntImm 0);
           Store "temp_data" (Load "data" (Spec.offset_expr inner_size cnt))
             (IntImm 0)])
       None)
    rho (kmem x out (VFloat b) (VInt p))
  = Some (if fgt (g i k j) b
          then kmem x out (VFloat (round32 (g i k j))) (VInt (off i j k))
          else kmem x out (VFloat b) (VInt p)).
Proof.
  intros Hi Hj Hk Hr.
  rewrite (exec_if _ _ _ _ _ (fgt (g i k j) b)).
  2:{ apply eval_gt; [by apply eval_load_data|].
      by rewrite (eval_load _ _ _ _ 0 [VFloat b]). }
  destruct (fgt (g i k j) b); [|reflexivity].
  rewrite exec_seq_cons.
  rewrite (exec_store _ _ _ _ _ _ (VInt (off i j k)) (VInt (off i j k)) 0
             [VInt p]);
    [|by apply eval_offset_expr|done|apply kmem_temp1|simpl; lia|reflexivity].
  change (<[Z.to_nat 0:=VInt (off i j k)]> [VInt p]) with [VInt (off i j k)].
  rewrite kmem_set_temp1, exec_seq_cons.
  rewrite (exec_store _ _ _ _ _ _ (VFloat (g i k j))
             (VFloat (round32 (g i k j))) 0 [VFloat b]);
    [|by apply eval_load_data|done|apply kmem_temp|simpl; lia|reflexivity].
  change (<[Z.to_nat 0:=VFloat (round32 (g i k j))]> [VFloat b])
    with [VFloat (round32 (g i k j))].
  rewrite kmem_set_temp. reflexivity.
Qed.

Lemma scan_pos (f : Z -> float) (n : nat) (j : Z) (b : float) (pos : Z) :
  snd (scan f j n b pos) = pos
  \/ j <= snd (scan f j n b pos) < j + Z.of_nat n.
Proof.
  revert j b pos. induction n as [|n IH]; intros j b pos; simpl; [by left|].
  destruct (fgt (f j) b).
  - destruct (IH (j + 1) (round32 (f j)) j) as [->|?]; right; lia.
  - destruct (IH (j + 1) b pos) as [->|?]; [by left|right; lia].
Qed.

Lemma first_max_range (f : Z -> float) :
  0 < cnt -> 0 <= first_max f cnt < cnt.
Proof.
  intros Hc. unfold first_max.
  destruct (scan_pos f (Z.to_nat cnt) 0 neg_inf 0) as [->|?]; lia.
Qed.

(** The [j] loop computes [scan]; the best-offset scratch holds the flat
    offset of the position. *)
Lemma exec_scan_j (rho : gmap string Z) (out : list value) (i k : Z) (n : nat) :
  rho !! "i0" = Some i -> rho !! "k" = Some k ->
  forall (j : Z) (b : float) (pos : Z),
  (forall j', j <= j' < j + Z.of_nat n -> 0 <= off i j' k < Z.of_nat (length x)) ->
  Exec.iterate
    (fun jv =>
       Exec.exec_in kernel_types
         (IfThenElse
            (GT (Load "data" (Spec.offset_expr inner_size cnt))
                (Load "temp_data" (IntImm 0)))
            (SeqStmt
               [Store "temp1_data" (Spec.offset_expr inner_size cnt) (IntImm 0);
                Store "temp_data" (Load "data" (Spec.offset_expr inner_size cnt))
                  (IntImm 0)])
            None)
         (<["j" := jv]> rho))
    j n (kmem x out (VFloat b) (VInt (off i pos k)))
  = Some (kmem x out (VFloat (fst (scan (g i k) j n b pos)))
            (VInt (off i (snd (scan (g i k) j n b pos)) k))).
Proof.
  intros Hi Hk. induction n as [|n IH]; intros j b pos Hr; [reflexivity|].
  cbn [Exec.iterate scan].
  rewrite (exec_scan_body _ _ _ _ i j k);
    [|by rewrite lookup_insert_ne|by rewrite lookup_insert_eq
     |by rewrite lookup_insert_ne|apply Hr; lia].
  destruct (fgt (g i k j) b); apply IH; intros j' Hj'; apply Hr; lia.
Qed.

Variable outer_size : Z.
Hypothesis (Hinner : 0 < inner_size) (Hcnt : 0 < cnt).
Hypothesis Hlen : Z.of_nat (length x) = outer_size * inner_size * cnt.

Lemma target_range (i k : Z) :
  0 <= i < outer_size -> 0 <= k < inner_size ->
  0 <= target x inner_size cnt i k < Z.of_nat (length x).
Proof.
  intros Hi Hk. rewrite Hlen. apply offset_range; try assumption.
  by apply first_max_range.
Qed.

Lemma length_mark (i k : Z) (out : list value) : length (mark x inner_size cnt i k out) = length out.
Proof. apply length_insert. Qed.

Lemma length_mark_k (i : Z) (n : nat) (k : Z) (out : list value) :
  length (mark_k x inner_size cnt i k n out) = length out.
Proof.
  revert k out. induction n as [|n IH]; intros k out; simpl; [done|].
  by rewrite IH, length_mark.
Qed.

Lemma length_mark_i (n : nat) (i : Z) (out : list value) :
  length (mark_i x inner_size cnt i n out) = length out.
Proof.
  revert i out. induction n as [|n IH]; intros i out; simpl; [done|].
  by rewrite IH, length_mark_k.
Qed.

(** One outer/inner pair (lines 124-132). *)
Lemma exec_scan_group (rho : gmap string Z) (out : list value) (t t1 : value)
    (i k : Z) :
  rho !! "i0" = Some i -> rho !! "k" = Some k ->
  0 <= i < outer_size -> 0 <= k < inner_size ->
  length out = length x ->
  exists t' t1',
    Exec.exec_in kernel_types (Spec.scan_group "data" "out_buf" inner_size cnt) rho
      (kmem x out t t1)
    = Some (kmem x (mark x inner_size cnt i k out) t' t1').
Proof.
  intros Hi Hk Hir Hkr Hout. unfold Spec.scan_group, Spec.scan_j.
  eexists _, _.
  rewrite exec_seq_cons.
  rewrite (exec_store _ _ _ _ _ _ (VFloat neg_inf) (VFloat neg_inf) 0 [t]);
    [|done|done|apply kmem_temp|simpl; lia|reflexivity].
  change (<[Z.to_nat 0:=VFloat neg_inf]> [t]) with [VFloat neg_inf].
  rewrite kmem_set_temp, exec_seq_cons.
  rewrite (exec_store _ _ _ _ _ _ (VInt (off i 0 k)) (VInt (off i 0 k)) 0 [t1]);
    [| |done|apply kmem_temp1|simpl; lia|reflexivity].
  2:{ cbn [Exec.eval]. rewrite Hi, Hk. unfold Spec.offset. simpl.
      do 2 f_equal. lia. }
  change (<[Z.to_nat 0:=VInt (off i 0 k)]> [t1]) with [VInt (off i 0 k)].
  rewrite kmem_set_temp1, exec_seq_cons, exec_for.
  rewrite (exec_scan_j _ _ i k) by
    (try assumption; intros j' Hj'; rewrite Hlen;
     apply offset_range; try assumption; lia).
  rewrite exec_seq_cons.
  rewrite (exec_store _ _ _ _ _ _ (VFloat fone) (VFloat fone)
             (target x inner_size cnt i k) out);
    [| done | | apply kmem_out | rewrite Hout; by apply target_range
     | reflexivity].
  2:{ by rewrite (eval_load _ _ _ _ 0 [VInt (target x inner_size cnt i k)]). }
  rewrite kmem_set_out, exec_seq_nil. reflexivity.
Qed.

(** The [k] loop. *)
Lemma exec_k_loop (rho : gmap string Z) (i : Z) (n : nat) :
  rho !! "i0" = Some i -> 0 <= i < outer_size ->
  forall (k : Z) (out : list value) (t t1 : value),
  0 <= k -> k + Z.of_nat n <= inner_size -> length out = length x ->
  exists t' t1',
    Exec.iterate
      (fun kv =>
         Exec.exec_in kernel_types (Spec.scan_group "data" "out_buf" inner_size cnt)
           (<["k" := kv]> rho))
      k n (kmem x out t t1)
    = Some (kmem x (mark_k x inner_size cnt i k n out) t' t1').
Proof.
  intros Hi Hir. induction n as [|n IH]; intros k out t t1 Hk Hkn Hout.
  - by eexists _, _.
  - cbn [Exec.iterate mark_k].
    destruct (exec_scan_group (<["k" := k]> rho) out t t1 i k)
      as (t' & t1' & ->);
      [by rewrite lookup_insert_ne|by rewrite lookup_insert_eq|done|lia|done|].
    apply IH; [lia|lia|by rewrite length_mark].
Qed.

(** The [i] loop. *)
Lemma exec_i_loop (rho : gmap string Z) (n : nat) :
  forall (i : Z) (out : list value) (t t1 : value),
  0 <= i -> i + Z.of_nat n <= outer_size -> length out = length x ->
  exists t' t1',
    Exec.iterate
      (fun iv =>
         Exec.exec_in kernel_types
           (For "k" (IntImm 0) (IntImm inner_size)
              (Spec.scan_group "data" "out_buf" inner_size cnt))
           (<["i0" := iv]> rho))
      i n (kmem x out t t1)
    = Some (kmem x (mark_i x inner_size cnt i n out) t' t1').
Proof.
  induction n as [|n IH]; intros i out t t1 Hi Hin Hout.
  - by eexists _, _.
  - cbn [Exec.iterate mark_i]. rewrite exec_for.
    destruct (exec_k_loop (<["i0" := i]> rho) i (Z.to_nat inner_size)
                ltac:(by rewrite lookup_insert_eq) ltac:(lia) 0 out t t1)
      as (t' & t1' & ->); [lia|lia|done|].
    apply IH; [lia|lia|by rewrite length_mark_k].
Qed.

End ScanRuns.

(** ** Running the zero-fill *)

Section ZeroFill.

Lemma length_fill (n : nat) (i : Z) (out : list value) :
  length (fill i n out) = length out.
Proof.
  revert i out. induction n as [|n IH]; intros i out; simpl; [done|].
  by rewrite IH, length_insert.
Qed.

Lemma fill_app (l2 l1 : list value) :
  fill (Z.of_nat (length l1)) (length l2) (l1 ++ l2)
  = l1 ++ replicate (length l2) (VFloat fzero).
Proof.
  revert l1. induction l2 as [|v l2 IH]; intros l1; simpl; [done|].
  rewrite Nat2Z.id, insert_app_r_alt by lia.
  replace (length l1 - length l1)%nat with O by lia. simpl.
  replace (Z.of_nat (length l1) + 1) with (Z.of_nat (length (l1 ++ [VFloat fzero])))
    by (rewrite length_app; simpl; lia).
  rewrite (cons_middle _ l1 l2), app_assoc, IH, <- app_assoc. done.
Qed.

Lemma fill_all (out : list value) :
  fill 0 (length out) out = replicate (length out) (VFloat fzero).
Proof. apply (fill_app out []). Qed.

Lemma exec_zero_fill (ty : gmap string string) (x : list float)
    (rho : gmap string Z) (t t1 : value) (n : nat) :
  ty !! "out_buf" = None ->
  forall (i : Z) (out : list value),
  0 <= i -> i + Z.of_nat n <= Z.of_nat (length out) ->
  Exec.iterate
    (fun iv =>
       Exec.exec_in ty (Store "out_buf" (FloatImm fzero) (Var "i"))
         (<["i" := iv]> rho))
    i n (kmem x out t t1)
  = Some (kmem x (fill i n out) t t1).
Proof.
  intros Hty. induction n as [|n IH]; intros i out Hi Hn; [done|].
  cbn [Exec.iterate fill].
  rewrite (exec_store _ _ _ _ _ _ (VFloat fzero) (VFloat fzero) i out);
    [|done|by cbn [Exec.eval]; rewrite lookup_insert_eq|apply kmem_out|lia
     |by unfold Exec.convert; rewrite Hty].
  rewrite kmem_set_out. apply IH; [lia|rewrite length_insert; lia].
Qed.

End ZeroFill.

(** ** Running the whole kernel *)

Section KernelRuns.

Variables (x : list float) (outer_size inner_size cnt : Z).
Hypothesis (Houter : 0 < outer_size) (Hinner : 0 < inner_size) (Hcnt : 0 < cnt).
Hypothesis Hlen : Z.of_nat (length x) = outer_size * inner_size * cnt.

Local Abbreviation off := (Spec.offset inner_size cnt).
Local Abbreviation g := (group x inner_size cnt).
Local Abbreviation tgt := (target x inner_size cnt).

Lemma exec_kernel (oshape : list Z) (odtype : string) (ins : list Tensor) :
  prod oshape = outer_size * inner_size * cnt ->
  Exec.run
    (mkExternOp oshape odtype ins
       (Spec.kernel "data" "out_buf" (prod oshape) outer_size inner_size cnt))
    x
  = Some (kernel_output x outer_size inner_size cnt).
Proof.
  intros Htot. unfold Exec.run, Exec.exec. cbn [body out_shape].
  unfold Spec.kernel. rewrite !exec_allocate. fold kernel_types.
  change (<["temp1_data" := replicate (Z.to_nat (prod [1])) VUndef]>
            (<["temp_data" := replicate (Z.to_nat (prod [1])) VUndef]>
               (<["out_buf" := replicate (Z.to_nat (prod oshape)) VUndef]>
                  {["data" := VFloat <$> x]})))
    with (kmem x (replicate (Z.to_nat (prod oshape)) VUndef) VUndef VUndef).
  assert (Hn : Z.to_nat (prod oshape) = length x) by lia.
  rewrite exec_seq_cons. unfold Spec.zero_fill. rewrite exec_for, Hn.
  rewrite exec_zero_fill by (done || rewrite ?length_replicate; lia).
  rewrite <- (length_replicate (length x) VUndef) at 1.
  rewrite fill_all, length_replicate.
  rewrite exec_seq_cons. unfold Spec.scan_mark. rewrite exec_for.
  destruct (exec_i_loop x inner_size cnt outer_size Hinner Hcnt Hlen ∅
              (Z.to_nat outer_size) 0 (replicate (length x) (VFloat fzero))
              VUndef VUndef) as (t' & t1' & ->);
    [lia|lia|by rewrite length_replicate|].
  rewrite exec_seq_nil. reflexivity.
Qed.

Lemma mark_keep_one (i k : Z) (out : list value) (q : nat) :
  out !! q = Some (VFloat fone) ->
  mark x inner_size cnt i k out !! q = Some (VFloat fone).
Proof.
  intros Hq. unfold mark.
  destruct (decide (Z.to_nat (tgt i k) = q)) as [->|Hne].
  - apply list_lookup_insert_eq. by apply lookup_lt_Some in Hq.
  - by rewrite list_lookup_insert_ne.
Qed.

Lemma mark_k_keep_one (i : Z) (n : nat) (k : Z) (out : list value) (q : nat) :
  out !! q = Some (VFloat fone) ->
  mark_k x inner_size cnt i k n out !! q = Some (VFloat fone).
Proof.
  revert k out. induction n as [|n IH]; intros k out Hq; simpl; [done|].
  by apply IH, mark_keep_one.
Qed.

Lemma mark_i_keep_one (n : nat) (i : Z) (out : list value) (q : nat) :
  out !! q = Some (VFloat fone) ->
  mark_i x inner_size cnt i n out !! q = Some (VFloat fone).
Proof.
  revert i out. induction n as [|n IH]; intros i out Hq; simpl; [done|].
  by apply IH, mark_k_keep_one.
Qed.

Lemma mark_k_hit (i : Z) (n : nat) (k k' : Z) (out : list value) :
  0 <= i < outer_size -> 0 <= k -> k <= k' < k + Z.of_nat n ->
  k + Z.of_nat n <= inner_size -> length out = length x ->
  mark_k x inner_size cnt i k n out !! Z.to_nat (tgt i k') = Some (VFloat fone).
Proof.
  intros Hi. revert k out. induction n as [|n IH]; intros k out Hk Hk' Hn Hout;
    [lia|]. simpl.
  destruct (decide (k' = k)) as [->|Hne].
  - apply mark_k_keep_one. unfold mark. apply list_lookup_insert_eq.
    pose proof (target_range x inner_size cnt outer_size Hinner Hcnt Hlen i k).
    lia.
  - apply IH; [lia|lia|lia|]. by rewrite length_mark.
Qed.

Lemma mark_i_hit (n : nat) (i i' k' : Z) (out : list value) :
  0 <= i -> i <= i' < i + Z.of_nat n -> i + Z.of_nat n <= outer_size ->
  0 <= k' < inner_size -> length out = length x ->
  mark_i x inner_size cnt i n out !! Z.to_nat (tgt i' k') = Some (VFloat fone).
Proof.
  revert i out. induction n as [|n IH]; intros i out Hi Hi' Hn Hk' Hout;
    [lia|]. simpl.
  destruct (decide (i' = i)) as [->|Hne].
  - apply mark_i_keep_one, mark_k_hit; (lia || done).
  - apply IH; [lia|lia|lia|done|]. by rewrite length_mark_k.
Qed.

Lemma mark_k_miss (i : Z) (n : nat) (k : Z) (out : list value) (q : nat) :
  (forall k', k <= k' < k + Z.of_nat n -> Z.to_nat (tgt i k') <> q) ->
  mark_k x inner_size cnt i k n out !! q = out !! q.
Proof.
  revert k out. induction n as [|n IH]; intros k out Hm; simpl; [done|].
  rewrite IH by (intros k' Hk'; apply Hm; lia).
  unfold mark. apply list_lookup_insert_ne, Hm. lia.
Qed.

Lemma mark_i_miss (n : nat) (i : Z) (out : list value) (q : nat) :
  (forall i' k', i <= i' < i + Z.of_nat n -> 0 <= k' < inner_size ->
                 Z.to_nat (tgt i' k') <> q) ->
  mark_i x inner_size cnt i n out !! q = out !! q.
Proof.
  revert i out. induction n as [|n IH]; intros i out Hm; simpl; [done|].
  rewrite IH by (intros i' k' Hi' Hk'; apply Hm; lia).
  apply mark_k_miss. intros k' Hk'. apply Hm; lia.
Qed.

Lemma length_kernel_output : length (kernel_output x outer_size inner_size cnt) = length x.
Proof. unfold kernel_output. by rewrite length_mark_i, length_replicate. Qed.

(** Element by element: [1.0] at the position [first_max] of its group,
    [0.0] at every other position. *)
Lemma kernel_output_lookup (i j k : Z) :
  0 <= i < outer_size -> 0 <= j < cnt -> 0 <= k < inner_size ->
  kernel_output x outer_size inner_size cnt !! Z.to_nat (off i j k)
  = Some (VFloat (if decide (j = first_max (g i k) cnt) then fone else fzero)).
Proof.
  intros Hi Hj Hk. unfold kernel_output.
  pose proof (offset_range outer_size inner_size cnt Hinner Hcnt i j k Hi Hj Hk)
    as Hr.
  destruct (decide (j = first_max (g i k) cnt)) as [E|Hne].
  - rewrite E. apply (mark_i_hit _ 0 i k); try lia.
    by rewrite length_replicate.
  - rewrite mark_i_miss.
    + apply lookup_replicate_2. lia.
    + intros i' k' Hi' Hk' Heq.
      pose proof (first_max_range cnt (g i' k') Hcnt) as Hfm.
      pose proof (target_range x inner_size cnt outer_size Hinner Hcnt Hlen
                    i' k' ltac:(lia) Hk') as Ht.
      assert (Heq' : tgt i' k' = off i j k) by lia.
      unfold target in Heq'.
      apply offset_inj in Heq'; try lia.
      destruct Heq' as (-> & E & ->). congruence.
Qed.

End KernelRuns.

(** ** Facts on the scan *)

Lemma round32_binary32 (x : float) : is_binary32 x = true -> round32 x = x.
Proof.
  destruct x as [s|s| |s m e]; try done.
  unfold is_binary32, round32. simpl. by intros ->.
Qed.

Section ScanFacts.

Variable f : Z -> float.








End ScanFacts.


(** ** The built kernel and its run *)

Section Hardmax.

Variables (data : Tensor) (axis : Z).

Local Abbreviation outer := (outer_size_of data axis).
Local Abbreviation inner := (inner_size_of data axis).
Local Abbreviation cnt := (axis_extent_of data axis).

Lemma hardmax_builds :
  valid_axis data axis ->
  hardmax data axis
  = inr (mkExternOp (shape data) (dtype data) [data]
           (Spec.kernel "data" "out_buf" (prod (shape data)) outer inner cnt)).
Proof.
  intros Hv. unfold valid_axis in Hv. unfold hardmax, extern.
  destruct (tuple_getitem_valid _ _ Hv) as [Hget _].
  rewrite (_hardmax_sealed _ _ _ (axis_extent_of data axis)) by exact Hget.
  cbn [fst name shape]. unfold normalize_axis. cbn [shape].
  fold (normalize_axis data axis).
  rewrite outer_size_eq, inner_size_eq by lia. reflexivity.
Qed.

Lemma hardmax_total :
  valid_axis data axis -> prod (shape data) = outer * inner * cnt.
Proof. intros Hv. by apply prod_split. Qed.

Lemma hardmax_sizes_pos :
  positive_shape (shape data) -> valid_axis data axis ->
  0 < outer /\ 0 < inner /\ 0 < cnt.
Proof. intros Hp Hv. by apply sizes_pos. Qed.

(** The run of the built kernel on a tensor of the declared shape. *)
Lemma hardmax_runs (x : list float) :
  positive_shape (shape data) -> valid_axis data axis ->
  Z.of_nat (length x) = prod (shape data) ->
  hardmax_run data axis x = Some (kernel_output x outer inner cnt).
Proof.
  intros Hp Hv Hx. unfold hardmax_run. rewrite hardmax_builds by done.
  destruct (hardmax_sizes_pos Hp Hv) as (Ho & Hi & Hc).
  apply exec_kernel; try done.
  - by rewrite Hx, hardmax_total.
  - by apply hardmax_total.
Qed.

End Hardmax.

Section Pointwise.

Variables (outer_size inner_size cnt : Z).
Hypothesis (Hinner : 0 < inner_size) (Hcnt : 0 < cnt).

(** Two flat tensors of the shape that agree at every offset are equal. *)
Lemma list_eq_offsets (l1 l2 : list value) :
  Z.of_nat (length l1) = outer_size * inner_size * cnt ->
  length l2 = length l1 ->
  (forall i j k, 0 <= i < outer_size -> 0 <= j < cnt -> 0 <= k < inner_size ->
     l1 !! Z.to_nat (Spec.offset inner_size cnt i j k)
     = l2 !! Z.to_nat (Spec.offset inner_size cnt i j k)) ->
  l1 = l2.
Proof.
  intros H1 H2 H. apply list_eq. intros n.
  destruct (decide (n < length l1)%nat) as [Hn|Hn].
  - destruct (offset_decompose outer_size inner_size cnt Hinner Hcnt
                (Z.of_nat n) ltac:(lia)) as (i & j & k & Hi & Hj & Hk & E).
    specialize (H i j k Hi Hj Hk). rewrite <- E, Nat2Z.id in H. exact H.
  - rewrite !lookup_ge_None_2 by lia. done.
Qed.

End Pointwise.

Section Sums.



End Sums.

(** ** The axis argument *)

Lemma tuple_getitem_negative (shape : list Z) (a : Z) :
  - len shape <= a < 0 ->
  tuple_getitem shape a = inr (Spec.axis_extent shape (a + len shape)).
Proof.
  intros Ha. unfold tuple_getitem, Spec.axis_extent, len in *.
  destruct (Z.ltb_spec a 0); [|lia].
  destruct (Z.ltb_spec (a + Z.of_nat (length shape)) 0); [lia|].
  destruct (Z.leb_spec (Z.of_nat (length shape)) (a + Z.of_nat (length shape)));
    [lia|]. simpl.
  destruct (shape !! Z.to_nat (a + Z.of_nat (length shape))) eqn:E; [done|].
  apply lookup_ge_None in E. lia.
Qed.

(** [hardmax] follows [shape[axis]]: its exception, or the kernel of its
    value. *)
Lemma hardmax_of_getitem (data : Tensor) (axis : Z) :
  hardmax data axis
  = match tuple_getitem (shape data) (normalize_axis data axis) with
    | inl e => inl e
    | inr cnt =>
        inr (mkExternOp (shape data) (dtype data) [data]
               (Spec.kernel "data" "out_buf" (prod (shape data))
                  (outer_size_loop (normalize_axis data axis) 0 (shape data) 1)
                  (inner_size_loop (normalize_axis data axis) 0 (shape data) 1)
                  cnt))
    end.
Proof.
  unfold hardmax, extern.
  destruct (tuple_getitem (shape data) (normalize_axis data axis)) as [e|cnt] eqn:E.
  - rewrite (_hardmax_raises _ _ _ e) by exact E. reflexivity.
  - rewrite (_hardmax_sealed _ _ _ cnt) by exact E. reflexivity.
Qed.

Lemma normalize_axis_other (data : Tensor) (axis : Z) :
  axis <> -1 -> normalize_axis data axis = axis.
Proof.
  intros H. unfold normalize_axis. destruct (Z.eqb_spec axis (-1)); [lia|done].
Qed.


Lemma handled_axis_normalize (data : Tensor) (axis : Z) :
  handled_axis data axis ->
  normalize_axis data axis = Spec.normalize (len (shape data)) axis.
Proof.
  intros [H|[-> H]]; unfold normalize_axis, Spec.normalize.
  - destruct (Z.eqb_spec axis (-1)); [lia|].
    destruct (Z.ltb_spec axis 0); [lia|done].
  - simpl. lia.
Qed.

Lemma handled_axis_valid (data : Tensor) (axis : Z) :
  handled_axis data axis -> valid_axis data axis.
Proof.
  intros H. unfold valid_axis. rewrite handled_axis_normalize by done.
  destruct H as [H|[-> H]]; unfold Spec.normalize.
  - destruct (Z.ltb_spec axis 0); lia.
  - simpl. lia.
Qed.

Lemma handled_axis_sizes (data : Tensor) (axis : Z) :
  handled_axis data axis ->
  outer_size_of data axis = outer_size_at data axis
  /\ inner_size_of data axis = inner_size_at data axis
  /\ axis_extent_of data axis = axis_extent_at data axis.
Proof.
  intros H.
  unfold outer_size_of, inner_size_of, axis_extent_of, outer_size_at,
    inner_size_at, axis_extent_at.
  by rewrite handled_axis_normalize.
Qed.

Lemma axis_in_range_normalize (data : Tensor) (axis : Z) :
  axis_in_range data axis ->
  0 <= Spec.normalize (len (shape data)) axis < len (shape data).
Proof.
  unfold axis_in_range, Spec.normalize. intros H.
  destruct (Z.ltb_spec axis 0); lia.
Qed.

Lemma axis_in_range_cases (data : Tensor) (axis : Z) :
  axis_in_range data axis ->
  handled_axis data axis \/ - len (shape data) <= axis <= -2.
Proof. unfold axis_in_range, handled_axis. lia. Qed.

Lemma getitem_in_range (data : Tensor) (axis : Z) :
  axis_in_range data axis ->
  exists cnt, tuple_getitem (shape data) (normalize_axis data axis) = inr cnt.
Proof.
  intros Ha. destruct (axis_in_range_cases data axis Ha) as [Hh|Hn].
  - destruct (tuple_getitem_valid _ _ (handled_axis_valid _ _ Hh)) as [-> _]. eauto.
  - rewrite normalize_axis_other by lia. rewrite tuple_getitem_negative by lia.
    eauto.
Qed.



(** ** Claims *)


Lemma group_binary32 (x : list float) (inner_size cnt i k j : Z) :
  float32_tensor x ->
  0 <= Spec.offset inner_size cnt i j k < Z.of_nat (length x) ->
  is_binary32 (group x inner_size cnt i k j) = true.
Proof.
  intros Hx Hr. unfold group, get.
  destruct (x !! Z.to_nat (Spec.offset inner_size cnt i j k)) eqn:E.
  - unfold float32_tensor in Hx. rewrite Forall_forall in Hx. apply Hx.
    apply list_elem_of_lookup. eauto.
  - apply lookup_ge_None in E. lia.
Qed.





Lemma normalize_axis_minus_one (data : Tensor) :
  normalize_axis data (-1) = normalize_axis data (len (shape data) - 1).
Proof.
  unfold normalize_axis. rewrite Z.eqb_refl.
  destruct (len (shape data) - 1 =? -1); reflexivity.
Qed.

Lemma _hardmax_axis (data out_buf : Tensor) (a1 a2 : Z) :
  normalize_axis data a1 = normalize_axis data a2 ->
  _hardmax data out_buf a1 = _hardmax data out_buf a2.
Proof. intros E. unfold _hardmax, _hardmax_body. rewrite E. reflexivity. Qed.

(** C2 (amended): only axis [-1] is rewritten, to [r-1]: on every shape of
    rank [r] the kernel built for axis [-1] is the one built for axis
    [r-1], by [_hardmax] and by [hardmax]. *)
Theorem hardmax_axis_minus_one (data : Tensor) :
  (forall out_buf,
     _hardmax data out_buf (-1) = _hardmax data out_buf (len (shape data) - 1))
  /\ hardmax data (-1) = hardmax data (len (shape data) - 1).
Proof.
  split.
  - intros out_buf. apply _hardmax_axis, normalize_axis_minus_one.
  - unfold hardmax, extern.
    rewrite (_hardmax_axis _ _ (-1) (len (shape data) - 1)); [reflexivity|].
    apply (normalize_axis_minus_one (mkTensor "data" (shape data) (dtype data))).
Qed.

(** C2 as stated fails at axis [-2] on shape [(2,3)]: no rank is added, and
    the kernel differs from the one for axis [0]. *)
Lemma hardmax_axis_minus_two_counterexample :
  normalize_axis d23 (-2) = -2
  /\ hardmax d23 (-2) <> hardmax d23 (-2 + len (shape d23)).
Proof.
  split; [reflexivity|]. intros H.
  apply (f_equal (fun r => match r with
                           | inr op =>
                               match body op with
                               | Allocate _ _ _ _
                                   (Allocate _ _ _ _
                                      (SeqStmt [_; For _ _ _ (For _ _ (IntImm n) _)])) => n
                               | _ => 0
                               end
                           | inl _ => 0
                           end)) in H.
  vm_compute in H. discriminate.
Qed.

(** C3 (amended): for every shape of rank [r] and every axis [a] with
    [a < -r] or [a >= r], [_hardmax] fails with [IndexError], raised by
    [shape[axis]] after the two scratch allocations and the zero-fill loop
    were emitted; [hardmax] returns no tree. *)
Theorem hardmax_axis_out_of_range (data out_buf : Tensor) (axis : Z) :
  axis < - len (shape data) \/ len (shape data) <= axis ->
  _hardmax data out_buf axis
  = (inl IndexError,
     ir_builder.mk
       [[ir_builder.IAlloc "temp_data" "float32" [1] "local";
         ir_builder.IAlloc "temp1_data" "int32" [1] "local";
         ir_builder.IStmt (Spec.zero_fill (name out_buf) (prod (shape data)))]])
  /\ ir_builder.emitted (snd (_hardmax data out_buf axis))
     = [Spec.zero_fill (name out_buf) (prod (shape data))]
  /\ hardmax data axis = inl IndexError.
Proof.
  intros Ha.
  assert (Hn : forall d : Tensor, shape d = shape data ->
            tuple_getitem (shape d) (normalize_axis d axis) = inl IndexError).
  { intros d Hd. apply tuple_getitem_out_of_range. unfold normalize_axis.
    rewrite Hd. unfold len in *.
    destruct (Z.eqb_spec axis (-1)) as [->|_]; lia. }
  split; [|split].
  - apply _hardmax_raises, Hn. reflexivity.
  - rewrite (_hardmax_raises _ _ _ IndexError) by (apply Hn; reflexivity).
    reflexivity.
  - unfold hardmax, extern.
    rewrite (_hardmax_raises _ _ _ IndexError) by (apply Hn; reflexivity).
    reflexivity.
Qed.

Lemma hardmax_axis_out_of_range_witness :
  _hardmax d23 (mkTensor "out_buf" [2; 3] "float32") 5
  = (inl IndexError,
     ir_builder.mk
       [[ir_builder.IAlloc "temp_data" "float32" [1] "local";
         ir_builder.IAlloc "temp1_data" "int32" [1] "local";
         ir_builder.IStmt (Spec.zero_fill "out_buf" (prod [2; 3]))]])
  /\ ir_builder.emitted (snd (_hardmax d23 (mkTensor "out_buf" [2; 3] "float32") 5))
     = [Spec.zero_fill "out_buf" (prod [2; 3])]
  /\ hardmax d23 5 = inl IndexError.
Proof.
  apply (hardmax_axis_out_of_range d23 (mkTensor "out_buf" [2; 3] "float32") 5).
  right. by vm_compute.
Defined.

(** C3 as stated fails at axis [5] on a rank-2 tensor: the error is
    [IndexError], not [AxisOutOfRange], and the zero-fill loop has been
    emitted when it is raised. *)
Lemma axis_five_rank_two_counterexample :
  fst (_hardmax d23 (mkTensor "out_buf" [2; 3] "float32") 5) <> inl AxisOutOfRange
  /\ ir_builder.emitted
       (snd (_hardmax d23 (mkTensor "out_buf" [2; 3] "float32") 5)) <> [].
Proof. split; intros H; vm_compute in H; discriminate. Qed.

Lemma tuple_getitem_error (shape : list Z) (a : Z) (e : error) :
  tuple_getitem shape a = inl e -> e = IndexError.
Proof.
  unfold tuple_getitem.
  destruct ((_ <? 0) || (_ <=? _)); [congruence|].
  destruct (shape !! _); congruence.
Qed.

(** C4 (amended): [hardmax] does not check the extents.  For every shape,
    also one with a non-positive dimension, construction yields the
    complete statement tree when [shape[axis]] exists and fails with
    [IndexError] otherwise; there is no partial result and no
    [InvalidShape]. *)
Theorem hardmax_complete_or_index_error (data : Tensor) (axis : Z) :
  (exists cnt,
     tuple_getitem (shape data) (normalize_axis data axis) = inr cnt
     /\ hardmax data axis
        = inr (mkExternOp (shape data) (dtype data) [data]
                 (Spec.kernel "data" "out_buf" (prod (shape data))
                    (outer_size_loop (normalize_axis data axis) 0 (shape data) 1)
                    (inner_size_loop (normalize_axis data axis) 0 (shape data) 1)
                    cnt)))
  \/ (tuple_getitem (shape data) (normalize_axis data axis) = inl IndexError
      /\ hardmax data axis = inl IndexError).
Proof.
  destruct (tuple_getitem (shape data) (normalize_axis data axis)) as [e|cnt] eqn:E.
  - right. pose proof (tuple_getitem_error _ _ _ E) as ->. split; [done|].
    unfold hardmax, extern. rewrite (_hardmax_raises _ _ _ IndexError) by exact E.
    reflexivity.
  - left. exists cnt. split; [done|].
    unfold hardmax, extern. rewrite (_hardmax_sealed _ _ _ cnt) by exact E.
    reflexivity.
Qed.

(** C4 as stated fails on shape [(2,0)] with axis [1]: construction
    succeeds. *)
Lemma zero_extent_counterexample :
  hardmax (mkTensor "x" [2; 0] "float32") 1 <> inl InvalidShape
  /\ exists op, hardmax (mkTensor "x" [2; 0] "float32") 1 = inr op.
Proof. split; [by vm_compute|]. eexists. reflexivity. Qed.


(** C5 (amended): for every shape of rank [r] and every axis [a] with
    [0 <= a <= r-1] or [a = -1] (which stands for [r-1]), the second
    statement of the built kernel is the scan: [i0] over [0, outer_size),
    [k] over [0, inner_size), [j] over [0, axis_extent), with [outer_size]
    the product of the dimensions before the axis, [inner_size] the product
    of those after it and [axis_extent] the extent at it; the element read
    and recorded is at flat offset
    [i*inner_size*axis_extent + j*inner_size + k], and it is compared
    strictly ([>]) against the running best, which starts at negative
    infinity. *)
Theorem hardmax_scan_phase (data : Tensor) (axis : Z) :
  handled_axis data axis ->
  scan_phase_at data axis
  /\ (forall inner_size axis_extent rho m i j k,
        rho !! "i0" = Some i -> rho !! "j" = Some j -> rho !! "k" = Some k ->
        Exec.eval rho m
          (Add (Add (Mul (Mul (Var "i0") (IntImm inner_size)) (IntImm axis_extent))
                    (Mul (Var "j") (IntImm inner_size)))
               (Var "k"))
        = Some (VInt (i * inner_size * axis_extent + j * inner_size + k)))
  /\ (forall rho m e1 e2 u v,
        Exec.eval rho m e1 = Some (VFloat u) ->
        Exec.eval rho m e2 = Some (VFloat v) ->
        Exec.eval rho m (GT e1 e2) = Some (VBool (fgt u v))
        /\ (fgt u v = true -> fle u v = false)).
Proof.
  intros Hh. pose proof (handled_axis_valid data axis Hh) as Hv.
  split; [|split].
  - unfold scan_phase_at. rewrite <- (handled_axis_normalize data axis Hh).
    cbv zeta. destruct (tuple_getitem_valid _ _ Hv) as [_ Hl].
    eexists _, _, _. split; [exact Hl|].
    split; [by apply hardmax_builds|]. reflexivity.
  - intros inner_size axis_extent rho m i j k Hi Hj Hk.
    by apply (eval_offset_expr inner_size axis_extent).
  - intros rho m e1 e2 u v H1 H2. split; [by apply eval_gt|].
    apply FloatOrder.fgt_not_fle.
Qed.

Lemma hardmax_scan_phase_witness :
  scan_phase_at d23 (-1)
  /\ (forall inner_size axis_extent rho m i j k,
        rho !! "i0" = Some i -> rho !! "j" = Some j -> rho !! "k" = Some k ->
        Exec.eval rho m
          (Add (Add (Mul (Mul (Var "i0") (IntImm inner_size)) (IntImm axis_extent))
                    (Mul (Var "j") (IntImm inner_size)))
               (Var "k"))
        = Some (VInt (i * inner_size * axis_extent + j * inner_size + k)))
  /\ (forall rho m e1 e2 u v,
        Exec.eval rho m e1 = Some (VFloat u) ->
        Exec.eval rho m e2 = Some (VFloat v) ->
        Exec.eval rho m (GT e1 e2) = Some (VBool (fgt u v))
        /\ (fgt u v = true -> fle u v = false)).
Proof.
  apply (hardmax_scan_phase d23 (-1)). right. by vm_compute.
Defined.

(** C5 as stated fails at the valid axis [-2] on shape [(2,3)]: the
    specification's sizes are [outer_size = 1], [inner_size = 3] and
    [axis_extent = 2], and the built scan runs [k] over [0, 6). *)
Lemma hardmax_scan_phase_counterexample :
  axis_in_range d23 (-2)
  /\ (outer_size_at d23 (-2) = 1 /\ inner_size_at d23 (-2) = 3
      /\ axis_extent_at d23 (-2) = 2)
  /\ hardmax d23 (-2)
     = inr (mkExternOp [2; 3] "float32" [d23]
              (Allocate "temp_data" "float32" [1] "local"
                 (Allocate "temp1_data" "int32" [1] "local"
                    (SeqStmt [Spec.zero_fill "out_buf" 6; scan_loops_of 1 6 2]))))
  /\ ~ scan_phase_at d23 (-2).
Proof.
  assert (E : hardmax d23 (-2)
              = inr (mkExternOp [2; 3] "float32" [d23]
                       (Allocate "temp_data" "float32" [1] "local"
                          (Allocate "temp1_data" "int32" [1] "local"
                             (SeqStmt [Spec.zero_fill "out_buf" 6;
                                       scan_loops_of 1 6 2])))))
    by reflexivity.
  split; [by vm_compute|]. split; [by vm_compute|]. split; [exact E|].
  intros (c & op & z & Hc & Hop & Hbody).
  rewrite E in Hop. injection Hop as <-. cbn [body] in Hbody.
  apply (f_equal (fun s => match s with
                           | Allocate _ _ _ _
                               (Allocate _ _ _ _
                                  (SeqStmt [_; For _ _ _ (For _ _ (IntImm n) _)])) => n
                           | _ => 0
                           end)) in Hbody.
  vm_compute in Hbody. discriminate.
Qed.

(** C6: for every shape of rank [r] and every valid axis (from [-r] to
    [r-1]), the first statement of the built kernel is one flat loop that
    stores [0.0] at every offset below
    [outer_size * inner_size * axis_extent], the element count; the scan
    loops follow it, and running it leaves the output buffer all zero. *)
Theorem hardmax_zero_fill_first (data : Tensor) (axis : Z) :
  axis_in_range data axis ->
  let total :=
    outer_size_at data axis * inner_size_at data axis * axis_extent_at data axis in
  exists op scan_loops,
    hardmax data axis = inr op
    /\ body op
       = Allocate "temp_data" "float32" [1] "local"
           (Allocate "temp1_data" "int32" [1] "local"
              (SeqStmt
                 [For "i" (IntImm 0) (IntImm total)
                    (Store "out_buf" (FloatImm fzero) (Var "i"));
                  scan_loops]))
    /\ (exists outer_size inner_size cnt,
          scan_loops = scan_loops_of outer_size inner_size cnt)
    /\ total = prod (shape data)
    /\ (forall x out t t1,
          Z.of_nat (length out) = total ->
          Exec.exec_in kernel_types
            (For "i" (IntImm 0) (IntImm total)
               (Store "out_buf" (FloatImm fzero) (Var "i")))
            ∅ (kmem x out t t1)
          = Some (kmem x (replicate (length out) (VFloat fzero)) t t1)).
Proof.
  intros Ha total.
  assert (Htot : total = prod (shape data)).
  { unfold total, outer_size_at, inner_size_at, axis_extent_at. symmetry.
    apply prod_split. by apply axis_in_range_normalize. }
  destruct (getitem_in_range data axis Ha) as [cnt Hc].
  eexists _, _. split; [rewrite hardmax_of_getitem, Hc; reflexivity|].
  split; [rewrite Htot; reflexivity|].
  split; [eexists _, _, _; reflexivity|]. split; [done|].
  intros x out t t1 Hout. rewrite exec_for.
  rewrite exec_zero_fill by (done || lia).
  replace (Z.to_nat total) with (length out) by lia.
  by rewrite fill_all.
Qed.

Lemma hardmax_zero_fill_first_witness :
  let total :=
    outer_size_at d23 (-2) * inner_size_at d23 (-2) * axis_extent_at d23 (-2) in
  exists op scan_loops,
    hardmax d23 (-2) = inr op
    /\ body op
       = Allocate "temp_data" "float32" [1] "local"
           (Allocate "temp1_data" "int32" [1] "local"
              (SeqStmt
                 [For "i" (IntImm 0) (IntImm total)
                    (Store "out_buf" (FloatImm fzero) (Var "i"));
                  scan_loops]))
    /\ (exists outer_size inner_size cnt,
          scan_loops = scan_loops_of outer_size inner_size cnt)
    /\ total = prod (shape d23)
    /\ (forall x out t t1,
          Z.of_nat (length out) = total ->
          Exec.exec_in kernel_types
            (For "i" (IntImm 0) (IntImm total)
               (Store "out_buf" (FloatImm fzero) (Var "i")))
            ∅ (kmem x out t t1)
          = Some (kmem x (replicate (length out) (VFloat fzero)) t t1)).
Proof.
  apply (hardmax_zero_fill_first d23 (-2)). by vm_compute.
Defined.






(** C9: for every input element type and every valid axis (from [-r] to
    [r-1]), the built kernel allocates one [float32], the scratch that is
    set to negative infinity, compared with the input element and assigned
    it (the running best), and one [int32], the scratch that is assigned
    the flat offset and read as the index of the store of [1.0] (the best
    offset); only the declared output type follows the input. *)
Theorem hardmax_scratch_types (data : Tensor) (axis : Z) :
  axis_in_range data axis ->
  exists op outer_size inner_size cnt,
    hardmax data axis = inr op
    /\ out_dtype op = dtype data
    /\ body op
       = Allocate "temp_data" "float32" [1] "local"
           (Allocate "temp1_data" "int32" [1] "local"
              (SeqStmt
                 [For "i" (IntImm 0) (IntImm (prod (shape data)))
                    (Store "out_buf" (FloatImm fzero) (Var "i"));
                  For "i0" (IntImm 0) (IntImm outer_size)
                    (For "k" (IntImm 0) (IntImm inner_size)
                       (SeqStmt
                          [Store "temp_data" (FloatImm neg_inf) (IntImm 0);
                           Store "temp1_data"
                             (Add (Mul (Mul (Var "i0") (IntImm inner_size))
                                       (IntImm cnt))
                                  (Var "k"))
                             (IntImm 0);
                           For "j" (IntImm 0) (IntImm cnt)
                             (IfThenElse
                                (GT (Load "data" (Spec.offset_expr inner_size cnt))
                                    (Load "temp_data" (IntImm 0)))
                                (SeqStmt
                                   [Store "temp1_data"
                                      (Spec.offset_expr inner_size cnt)
                                      (IntImm 0);
                                    Store "temp_data"
                                      (Load "data" (Spec.offset_expr inner_size cnt))
                                      (IntImm 0)])
                                None);
                           Store "out_buf" (FloatImm fone)
                             (Load "temp1_data" (IntImm 0))]))])).
Proof.
  intros Ha. destruct (getitem_in_range data axis Ha) as [cnt Hc].
  eexists _, _, _, _. split; [rewrite hardmax_of_getitem, Hc; reflexivity|].
  split; reflexivity.
Qed.

Lemma hardmax_scratch_types_witness :
  exists op outer_size inner_size cnt,
    hardmax (mkTensor "x" [4] "float64") 0 = inr op
    /\ out_dtype op = "float64"
    /\ body op
       = Allocate "temp_data" "float32" [1] "local"
           (Allocate "temp1_data" "int32" [1] "local"
              (SeqStmt
                 [For "i" (IntImm 0) (IntImm (prod [4]))
                    (Store "out_buf" (FloatImm fzero) (Var "i"));
                  For "i0" (IntImm 0) (IntImm outer_size)
                    (For "k" (IntImm 0) (IntImm inner_size)
                       (SeqStmt
                          [Store "temp_data" (FloatImm neg_inf) (IntImm 0);
                           Store "temp1_data"
                             (Add (Mul (Mul (Var "i0") (IntImm inner_size))
                                       (IntImm cnt))
                                  (Var "k"))
                             (IntImm 0);
                           For "j" (IntImm 0) (IntImm cnt)
                             (IfThenElse
                                (GT (Load "data" (Spec.offset_expr inner_size cnt))
                                    (Load "temp_data" (IntImm 0)))
                                (SeqStmt
                                   [Store "temp1_data"
                                      (Spec.offset_expr inner_size cnt)
                                      (IntImm 0);
                                    Store "temp_data"
                                      (Load "data" (Spec.offset_expr inner_size cnt))
                                      (IntImm 0)])
                                None);
                           Store "out_buf" (FloatImm fone)
                             (Load "temp1_data" (IntImm 0))]))])).
Proof.
  apply (hardmax_scratch_types (mkTensor "x" [4] "float64") 0).
  by vm_compute.
Defined.




(** * Further properties *)

(** ** The scan on any input *)

Section ScanAny.

Variable f : Z -> float.








End ScanAny.

(** On floats of 32 bits the scan follows the order of the elements
    only. *)
Lemma scan_same_order (f f' : Z -> float) (cnt : Z) (n : nat) :
  (forall j, 0 <= j < cnt -> is_binary32 (f j) = true) ->
  (forall j, 0 <= j < cnt -> is_binary32 (f' j) = true) ->
  same_order f f' cnt ->
  forall (j : Z) (b b' : float) (pos : Z),
  0 <= j -> j + Z.of_nat n <= cnt ->
  (b = neg_inf /\ b' = neg_inf) \/ (0 <= pos < j /\ b = f pos /\ b' = f' pos) ->
  snd (scan f j n b pos) = snd (scan f' j n b' pos).
Proof.
  intros Hb Hb' [Hcmp Hinf].
  induction n as [|n IH]; intros j b b' pos Hj Hn Hrel; [done|].
  simpl.
  rewrite (round32_binary32 (f j)) by (apply Hb; lia).
  rewrite (round32_binary32 (f' j)) by (apply Hb'; lia).
  assert (E : fgt (f j) b = fgt (f' j) b').
  { destruct Hrel as [[-> ->]|(Hp & -> & ->)]; [apply Hinf|apply Hcmp]; lia. }
  rewrite <- E. destruct (fgt (f j) b).
  - apply IH; [lia|lia|]. right. split; [lia|done].
  - apply IH; [lia|lia|]. destruct Hrel as [?|(? & ? & ?)]; [by left|right].
    split; [lia|done].
Qed.

Lemma first_max_same_order (f f' : Z -> float) (cnt : Z) :
  (forall j, 0 <= j < cnt -> is_binary32 (f j) = true) ->
  (forall j, 0 <= j < cnt -> is_binary32 (f' j) = true) ->
  same_order f f' cnt -> first_max f cnt = first_max f' cnt.
Proof.
  intros Hb Hb' H. unfold first_max.
  destruct (Z.le_gt_cases cnt 0) as [Hle|Hgt].
  - by replace (Z.to_nat cnt) with O by lia.
  - apply (scan_same_order f f' cnt); [done|done|done|lia|lia|by left].
Qed.


(** ** The output on any input *)



(** X2: on inputs of floats of 32 bits the output depends on the input
    only through the order of the elements within each group: two inputs
    whose elements compare the same way, with each other and with negative
    infinity, have the same output. *)
Theorem hardmax_depends_on_order (data : Tensor) (axis : Z) (x x' : list float) :
  positive_shape (shape data) -> handled_axis data axis ->
  Z.of_nat (length x) = prod (shape data) ->
  Z.of_nat (length x') = prod (shape data) ->
  float32_tensor x -> float32_tensor x' ->
  (forall i k,
     0 <= i < outer_size_at data axis -> 0 <= k < inner_size_at data axis ->
     same_order
       (group x (inner_size_at data axis) (axis_extent_at data axis) i k)
       (group x' (inner_size_at data axis) (axis_extent_at data axis) i k)
       (axis_extent_at data axis)) ->
  hardmax_run data axis x = hardmax_run data axis x'.
Proof.
  intros Hp Hh Hx Hx' Hbin Hbin'. pose proof (handled_axis_valid data axis Hh) as Hv.
  destruct (handled_axis_sizes data axis Hh) as (Eo & Ei & Ec).
  rewrite <- Eo, <- Ei, <- Ec. intros Hord.
  destruct (hardmax_sizes_pos data axis Hp Hv) as (Ho & Hi & Hc).
  pose proof (hardmax_total data axis Hv) as Htot.
  rewrite !hardmax_runs by done. f_equal.
  apply (list_eq_offsets (outer_size_of data axis) (inner_size_of data axis)
           (axis_extent_of data axis) Hi Hc).
  - rewrite length_kernel_output by (done || lia). lia.
  - rewrite !length_kernel_output by (done || lia). lia.
  - intros i j k Hir Hjr Hkr.
    rewrite !kernel_output_lookup by (done || lia).
    rewrite (first_max_same_order
               (group x (inner_size_of data axis) (axis_extent_of data axis) i k)
               (group x' (inner_size_of data axis) (axis_extent_of data axis) i k)
               (axis_extent_of data axis)); [done| | |by apply Hord].
    + intros j' Hj'. apply group_binary32; [done|].
      rewrite Hx, Htot. by apply offset_range.
    + intros j' Hj'. apply group_binary32; [done|].
      rewrite Hx', Htot. by apply offset_range.
Qed.

Lemma hardmax_depends_on_order_witness :
  hardmax_run d23 (-1) x23 = hardmax_run d23 (-1) [f2; f9; f5; f5; fone; fone].
Proof.
  apply (hardmax_depends_on_order d23 (-1) x23 [f2; f9; f5; f5; fone; fone]).
  - unfold positive_shape. repeat constructor.
  - right. by vm_compute.
  - reflexivity.
  - reflexivity.
  - unfold float32_tensor. repeat constructor.
  - unfold float32_tensor. repeat constructor.
  - intros i k Hi Hk.
    change (outer_size_at d23 (-1)) with 2 in Hi.
    change (inner_size_at d23 (-1)) with 1 in Hk.
    change (axis_extent_at d23 (-1)) with 3.
    assert (Hk0 : k = 0) by lia. subst k.
    assert (Hi01 : i = 0 \/ i = 1) by lia.
    split.
    + intros a b Ha Hb.
      assert (Ha3 : a = 0 \/ a = 1 \/ a = 2) by lia.
      assert (Hb3 : b = 0 \/ b = 1 \/ b = 2) by lia.
      destruct Hi01 as [-> | ->];
        destruct Ha3 as [-> | [-> | ->]];
        destruct Hb3 as [-> | [-> | ->]]; reflexivity.
    + intros a Ha.
      assert (Ha3 : a = 0 \/ a = 1 \/ a = 2) by lia.
      destruct Hi01 as [-> | ->]; destruct Ha3 as [-> | [-> | ->]]; reflexivity.
Defined.






(** X5: for a positive shape and an axis from [0] to [r-1], or [-1], the
    offsets of the loops of the built kernel cover the tensor exactly once:
    the index expression of the built loop nest evaluates to
    [i*inner_size*cnt + j*inner_size + k], every triple [(i, j, k)] of the
    built loops addresses an element of the tensor, and every element is
    addressed by exactly one triple. *)
Theorem hardmax_offsets_cover_once (data : Tensor) (axis : Z) :
  positive_shape (shape data) -> handled_axis data axis ->
  offsets_cover_once data axis.
Proof.
  intros Hp Hh. pose proof (handled_axis_valid data axis Hh) as Hv.
  destruct (handled_axis_sizes data axis Hh) as (Eo & Ei & Ec).
  unfold offsets_cover_once. cbv zeta. rewrite <- Eo, <- Ei, <- Ec.
  destruct (hardmax_sizes_pos data axis Hp Hv) as (Ho & Hi & Hc).
  pose proof (hardmax_total data axis Hv) as Htot.
  exists (mkExternOp (shape data) (dtype data) [data]
            (Spec.kernel "data" "out_buf" (prod (shape data))
               (outer_size_of data axis) (inner_size_of data axis)
               (axis_extent_of data axis))).
  split; [by apply hardmax_builds|]. split; [reflexivity|]. split; [|split].
  - intros rho m i j k Hri Hrj Hrk.
    by apply (eval_offset_expr (inner_size_of data axis) (axis_extent_of data axis)).
  - intros i j k Hir Hjr Hkr. rewrite Htot.
    by apply (offset_range _ _ _ Hi Hc).
  - intros n Hn. rewrite Htot in Hn.
    destruct (offset_decompose _ _ _ Hi Hc n Hn)
      as (i & j & k & Hir & Hjr & Hkr & E).
    exists i, j, k. split; [done|]. split; [symmetry; exact E|].
    intros i' j' k' Hir' Hjr' Hkr' E'.
    apply (offset_inj (inner_size_of data axis) (axis_extent_of data axis)
             i' j' k' i j k); try done.
    unfold Spec.offset in *. lia.
Qed.

Lemma hardmax_offsets_cover_once_witness : offsets_cover_once d23 (-1).
Proof.
  apply (hardmax_offsets_cover_once d23 (-1)).
  - unfold positive_shape. repeat constructor.
  - right. by vm_compute.
Defined.

(** ** The accepted axes *)

(** X6: [hardmax] returns a kernel exactly for the axes from [-r] to
    [r-1], [r] the rank; in particular it fails on every axis for a tensor
    of rank [0]. *)
Theorem hardmax_succeeds_iff (data : Tensor) (axis : Z) :
  (exists op, hardmax data axis = inr op)
  <-> - len (shape data) <= axis < len (shape data).
Proof.
  rewrite hardmax_of_getitem. split.
  - intros [op Hop].
    destruct (decide (- len (shape data) <= axis < len (shape data)))
      as [?|Hout]; [done|].
    rewrite tuple_getitem_out_of_range in Hop; [discriminate|].
    unfold normalize_axis, len in *.
    destruct (Z.eqb_spec axis (-1)) as [->|_]; lia.
  - intros Ha. destruct (decide (0 <= normalize_axis data axis < len (shape data)))
      as [Hv|Hneg].
    + destruct (tuple_getitem_valid _ _ Hv) as [-> _]. eauto.
    + assert (Hne : axis <> -1).
      { intros ->. unfold normalize_axis in Hneg. simpl in Hneg. lia. }
      rewrite normalize_axis_other in * by done.
      rewrite tuple_getitem_negative by lia. eauto.
Qed.

(** X7: an axis from [-r] to [-2] is used as it is: no dimension counts as
    outer, all of them count as inner, and the extent is the one Python's
    negative index selects. *)
Theorem hardmax_negative_axis_kernel (data : Tensor) (axis : Z) :
  - len (shape data) <= axis <= -2 ->
  hardmax data axis
  = inr (mkExternOp (shape data) (dtype data) [data]
           (Spec.kernel "data" "out_buf" (prod (shape data))
              1 (prod (shape data))
              (Spec.axis_extent (shape data) (axis + len (shape data))))).
Proof.
  intros Ha. rewrite hardmax_of_getitem, normalize_axis_other by lia.
  rewrite tuple_getitem_negative by lia.
  rewrite outer_size_loop_spec, inner_size_loop_after by lia.
  replace (Z.to_nat (axis - 0)) with O by lia.
  rewrite take_0, prod_nil. do 3 f_equal; lia.
Qed.

Lemma hardmax_negative_axis_kernel_witness :
  hardmax d23 (-2)
  = inr (mkExternOp [2; 3] "float32" [d23]
           (Spec.kernel "data" "out_buf" 6 1 6 2)).
Proof.
  apply (hardmax_negative_axis_kernel d23 (-2)). by vm_compute.
Defined.


(** ** Runs that leave the buffers *)

(** An iteration of the [j] loop whose offset is past the input has no
    result. *)
Lemma exec_scan_body_out_of_bounds (x : list float) (inner_size cnt : Z)
    (rho : gmap string Z) (out : list value) (t t1 : value) (i j k : Z) :
  rho !! "i0" = Some i -> rho !! "j" = Some j -> rho !! "k" = Some k ->
  Z.of_nat (length x) <= Spec.offset inner_size cnt i j k ->
  Exec.exec_in kernel_types
    (IfThenElse
       (GT (Load "data" (Spec.offset_expr inner_size cnt))
           (Load "temp_data" (IntImm 0)))
       (SeqStmt
          [Store "temp1_data" (Spec.offset_expr inner_size cnt) (IntImm 0);
           Store "temp_data" (Load "data" (Spec.offset_expr inner_size cnt))
             (IntImm 0)])
       None)
    rho (kmem x out t t1)
  = None.
Proof.
  intros Hi Hj Hk Hr. cbn [Exec.exec_in Exec.eval].
  rewrite !(eval_offset_expr _ _ _ _ i j k) by assumption.
  rewrite kmem_data.
  destruct (Z.ltb_spec (Spec.offset inner_size cnt i j k) 0); [done|].
  rewrite (lookup_ge_None_2 (VFloat <$> x)) by (rewrite length_fmap; lia).
  done.
Qed.

Lemma iterate_unchanged {S : Type} (step : Z -> S -> option S) (n : nat) (i : Z)
    (s : S) :
  (forall i' s', step i' s' = Some s') -> Exec.iterate step i n s = Some s.
Proof.
  intros H. revert i. induction n as [|n IH]; intros i; simpl; [done|].
  by rewrite H.
Qed.

(** The kernel of an axis from [-r] to [-2] run on its tensor: the second
    position of the first group is past the input. *)
Lemma run_negative_axis_kernel (x : list float) (oshape : list Z) (odtype : string)
    (ins : list Tensor) (cnt : Z) :
  Z.of_nat (length x) = prod oshape -> 0 < prod oshape -> 2 <= cnt ->
  Exec.run
    (mkExternOp oshape odtype ins
       (Spec.kernel "data" "out_buf" (prod oshape) 1 (prod oshape) cnt))
    x
  = None.
Proof.
  intros Hx Htot Hcnt. unfold Exec.run, Exec.exec. cbn [body out_shape].
  unfold Spec.kernel. rewrite !exec_allocate. fold kernel_types.
  change (<["temp1_data" := replicate (Z.to_nat (prod [1])) VUndef]>
            (<["temp_data" := replicate (Z.to_nat (prod [1])) VUndef]>
               (<["out_buf" := replicate (Z.to_nat (prod oshape)) VUndef]>
                  {["data" := VFloat <$> x]})))
    with (kmem x (replicate (Z.to_nat (prod oshape)) VUndef) VUndef VUndef).
  rewrite exec_seq_cons. unfold Spec.zero_fill. rewrite exec_for.
  rewrite exec_zero_fill by (done || rewrite ?length_replicate; lia).
  rewrite exec_seq_cons. unfold Spec.scan_mark. rewrite exec_for.
  change (Z.to_nat 1) with 1%nat. cbn [Exec.iterate]. rewrite exec_for.
  destruct (Z.to_nat (prod oshape)) as [|n] eqn:En; [lia|].
  cbn [Exec.iterate]. unfold Spec.scan_group, Spec.scan_j.
  set (out := fill 0 (S n) (replicate (S n) VUndef)).
  set (rho := <["k" := 0]> (<["i0" := 0]> (∅ : gmap string Z))).
  rewrite exec_seq_cons.
  rewrite (exec_store _ _ _ _ _ _ (VFloat neg_inf) (VFloat neg_inf) 0 [VUndef]);
    [|done|done|apply kmem_temp|simpl; lia|reflexivity].
  change (<[Z.to_nat 0:=VFloat neg_inf]> [VUndef]) with [VFloat neg_inf].
  rewrite kmem_set_temp, exec_seq_cons.
  rewrite (exec_store _ _ _ _ _ _ (VInt (Spec.offset (prod oshape) cnt 0 0 0))
             (VInt (Spec.offset (prod oshape) cnt 0 0 0)) 0 [VUndef]);
    [|done|done|apply kmem_temp1|simpl; lia|reflexivity].
  change (<[Z.to_nat 0:=VInt (Spec.offset (prod oshape) cnt 0 0 0)]> [VUndef])
    with [VInt (Spec.offset (prod oshape) cnt 0 0 0)].
  rewrite kmem_set_temp1, exec_seq_cons, exec_for.
  destruct (Z.to_nat cnt) as [|[|c]] eqn:Ec; [lia|lia|].
  cbn [Exec.iterate].
  rewrite (exec_scan_body x (prod oshape) cnt _ _ _ _ 0 0 0);
    [|done|done|done|unfold Spec.offset; lia].
  assert (Hoob : forall t t1,
            Exec.exec_in kernel_types
              (IfThenElse
                 (GT (Load "data" (Spec.offset_expr (prod oshape) cnt))
                     (Load "temp_data" (IntImm 0)))
                 (SeqStmt
                    [Store "temp1_data" (Spec.offset_expr (prod oshape) cnt)
                       (IntImm 0);
                     Store "temp_data"
                       (Load "data" (Spec.offset_expr (prod oshape) cnt))
                       (IntImm 0)])
                 None)
              (<["j" := 0 + 1]> rho) (kmem x out t t1) = None).
  { intros t t1. apply (exec_scan_body_out_of_bounds _ _ _ _ _ _ _ 0 1 0);
      [done|done|done|unfold Spec.offset; lia]. }
  destruct (fgt _ _); rewrite Hoob; reflexivity.
Qed.

(** X9: on a tensor with positive extents, an axis from [-r] to [-2] whose
    extent is at least [2] gives a kernel that reads past the input: its
    run has no result. *)
Theorem hardmax_negative_axis_out_of_bounds (data : Tensor) (axis : Z)
    (x : list float) :
  positive_shape (shape data) ->
  - len (shape data) <= axis <= -2 ->
  2 <= Spec.axis_extent (shape data) (axis + len (shape data)) ->
  Z.of_nat (length x) = prod (shape data) ->
  hardmax_run data axis x = None.
Proof.
  intros Hp Ha Hc Hx. unfold hardmax_run.
  rewrite hardmax_of_getitem, normalize_axis_other by lia.
  rewrite tuple_getitem_negative by lia.
  rewrite outer_size_loop_spec, inner_size_loop_after by lia.
  replace (Z.to_nat (axis - 0)) with O by lia.
  rewrite take_0, prod_nil.
  replace (1 * 1) with 1 by lia. replace (1 * prod (shape data)) with (prod (shape data)) by lia.
  apply run_negative_axis_kernel; [done|by apply prod_pos|done].
Qed.

Lemma hardmax_negative_axis_out_of_bounds_witness :
  hardmax_run d23 (-2) x23 = None.
Proof.
  apply (hardmax_negative_axis_out_of_bounds d23 (-2) x23).
  - unfold positive_shape. repeat constructor.
  - by vm_compute.
  - by vm_compute.
  - reflexivity.
Defined.



(** X11: when the product of the extents before the axis, or of those
    after it, is [0], the tensor is empty and so is every loop that would
    touch it: the run on the empty input returns the empty output. *)
Theorem hardmax_empty_tensor (data : Tensor) (axis : Z) :
  valid_axis data axis ->
  outer_size_of data axis = 0 \/ inner_size_of data axis = 0 ->
  prod (shape data) = 0 /\ hardmax_run data axis [] = Some [].
Proof.
  intros Hv Hz.
  assert (Htot : prod (shape data) = 0)
    by (rewrite (hardmax_total data axis Hv); destruct Hz as [-> | ->]; lia).
  split; [done|].
  unfold hardmax_run. rewrite hardmax_builds by done.
  unfold Exec.run, Exec.exec. cbn [body out_shape].
  unfold Spec.kernel. rewrite !exec_allocate, Htot. fold kernel_types.
  change (<["temp1_data" := replicate (Z.to_nat (prod [1])) VUndef]>
            (<["temp_data" := replicate (Z.to_nat (prod [1])) VUndef]>
               (<["out_buf" := replicate (Z.to_nat 0) VUndef]>
                  {["data" := VFloat <$> []]})))
    with (kmem [] [] VUndef VUndef).
  rewrite exec_seq_cons. unfold Spec.zero_fill. rewrite exec_for.
  change (Z.to_nat 0) with O. cbn [Exec.iterate].
  rewrite exec_seq_cons. unfold Spec.scan_mark. rewrite exec_for.
  assert (Hloop :
    Exec.iterate
      (fun i =>
         Exec.exec_in kernel_types
           (For "k" (IntImm 0) (IntImm (inner_size_of data axis))
              (Spec.scan_group "data" "out_buf" (inner_size_of data axis)
                 (axis_extent_of data axis)))
           (<["i0" := i]> ∅))
      0 (Z.to_nat (outer_size_of data axis)) (kmem [] [] VUndef VUndef)
    = Some (kmem [] [] VUndef VUndef)).
  { destruct Hz as [-> | Hin]; [reflexivity|].
    apply iterate_unchanged. intros i' s'. rewrite exec_for, Hin. reflexivity. }
  rewrite Hloop, exec_seq_nil. reflexivity.
Qed.

Lemma hardmax_empty_tensor_witness :
  prod [0; 3] = 0 /\ hardmax_run (mkTensor "x" [0; 3] "float32") 1 [] = Some [].
Proof.
  apply (hardmax_empty_tensor (mkTensor "x" [0; 3] "float32") 1).
  - by vm_compute.
  - left. reflexivity.
Defined.

(** ** The store after the run *)



